(** * json-to-pdf: the layout and pagination engine of [generatePDF]

    A shallow embedding of [src/generatePDF.ts].  The jsPDF document is a
    list of pages, each page the list of drawing calls issued on it; the
    cursor [y] is threaded explicitly exactly as the source threads its
    local variable.  The collaborators the source calls but does not
    define (the page-size table of jsPDF, text wrapping, the table plugin,
    the HTTP client, the clock) are the fields of a [World].  Which drawing
    calls the library performs and which it refuses with an error of its
    own is a [canvas]; [call] is the promise as the caller sees it.

    Numbers: a JavaScript number is modelled by an exact rational of [Q];
    floating-point rounding, NaN and the infinities are outside the model. *)

From stdpp Require Import base option list strings.
From Stdlib Require Import QArith Lqa Lia DecimalString.

Open Scope Q_scope.
Set Warnings "-register-all".

(** ** JSON values *)

(** An object is the list of its own enumerable properties in the order in
    which [for ... in] and [Object.keys] visit them; keys are distinct. *)
Inductive json : Type :=
| JNull
| JBool (b : bool)
| JNum (q : Q)
| JStr (s : string)
| JArr (vs : list json)
| JObj (kvs : list (string * json)).

(** [undefined] is the absence of a value: [None] in an [option json]. *)
Abbreviation undefined := (@None json).

(** [cleanJSON] rebuilds arrays and non-null objects, and returns everything
    else as it is. *)
Fixpoint cleanJSON (data : json) : json :=
  match data with
  | JArr vs => JArr (map cleanJSON vs)
  | JObj kvs => JObj (map (fun kv => (fst kv, cleanJSON (snd kv))) kvs)
  | _ => data
  end.

(** JavaScript truthiness of a JSON value. *)
Definition truthy (v : json) : bool :=
  match v with
  | JNull => false
  | JBool b => b
  | JNum q => negb (Z.eqb (Qnum q) 0)
  | JStr s => negb (String.eqb s "")
  | JArr _ | JObj _ => true
  end.

Definition truthy_opt (o : option json) : bool :=
  match o with
  | Some v => truthy v
  | None => false
  end.

(** [a || b] on a possibly undefined left operand. *)
Definition or_else (o : option json) (dflt : json) : json :=
  match o with
  | Some v => if truthy v then v else dflt
  | None => dflt
  end.

(** The decimal spelling of an array index or a page number. *)
Definition index_key (i : nat) : string := NilEmpty.string_of_uint (Nat.to_uint i).

Fixpoint index_lookup {A : Type} (key : string) (i : nat) (l : list A) : option A :=
  match l with
  | [] => None
  | x :: l' => if String.eqb key (index_key i) then Some x else index_lookup key (S i) l'
  end.

Fixpoint assoc (key : string) (kvs : list (string * json)) : option json :=
  match kvs with
  | [] => None
  | (k, v) :: kvs' => if String.eqb key k then Some v else assoc key kvs'
  end.

Fixpoint chars (s : string) : list json :=
  match s with
  | EmptyString => []
  | String c s' => JStr (String c EmptyString) :: chars s'
  end.

(** [v[key]] for a value that is neither [null] nor [undefined]: own
    properties only (the methods inherited from the prototypes are not
    modelled; none of them is called [url], [x], [width], [height], [text],
    [header] or [footer]). *)
Definition prop (v : json) (key : string) : option json :=
  match v with
  | JObj kvs => assoc key kvs
  | JArr vs =>
      if String.eqb key "length" then Some (JNum (inject_Z (Z.of_nat (length vs))))
      else index_lookup key 0 vs
  | JStr s =>
      if String.eqb key "length" then Some (JNum (inject_Z (Z.of_nat (String.length s))))
      else index_lookup key 0 (chars s)
  | JNull | JBool _ | JNum _ => None
  end.

(** ** Outcomes *)

(** The exceptions the code of [generatePDF.ts] meets in its own
    statements.  The [Error] that jsPDF throws from a drawing call it
    refuses is not among them: [call] below accounts for it. *)
Inductive exn : Type :=
| TypeError        (* a property read or [Object.keys] on [null] *)
| RequestError.    (* [axios.get] of the document rejected *)

(** [Unsupported] marks a run that reaches JavaScript coercions the
    embedding does not cover (arithmetic on a truthy non-number). *)
Inductive outcome (A : Type) : Type :=
| Ok (a : A)
| Throw (e : exn)
| Unsupported.
Arguments Ok {A} a.
Arguments Throw {A} e.
Arguments Unsupported {A}.

Global Instance outcome_ret : MRet outcome := fun _ a => Ok a.
Global Instance outcome_bind : MBind outcome := fun _ _ f m =>
  match m with
  | Ok a => f a
  | Throw e => Throw e
  | Unsupported => Unsupported
  end.

(** [v.key] and [v[key]]: reading a property of [null] throws. *)
Definition get_prop (v : json) (key : string) : outcome (option json) :=
  match v with
  | JNull => Throw TypeError
  | _ => Ok (prop v key)
  end.

(** [Object.keys(v)] for a value whose [typeof] is ["object"]. *)
Definition object_keys (v : json) : outcome (list string) :=
  match v with
  | JNull => Throw TypeError
  | JObj kvs => Ok (map fst kvs)
  | JArr vs => Ok (map index_key (seq 0 (length vs)))
  | _ => Ok []
  end.

(** The pairs [(key, data[key])] that [for (const key in data)] visits. *)
Definition for_in (data : json) : list (string * json) :=
  match data with
  | JObj kvs => kvs
  | JArr vs => imap (fun i v => (index_key i, v)) vs
  | JStr s => imap (fun i v => (index_key i, v)) (chars s)
  | JNull | JBool _ | JNum _ => []
  end.

(** [a || dflt] used as a number. *)
Definition num_or (o : option json) (dflt : Q) : outcome Q :=
  match o with
  | None => Ok dflt
  | Some v =>
      if truthy v then
        match v with
        | JNum q => Ok q
        | _ => Unsupported
        end
      else Ok dflt
  end.

(** ** The canvas *)

(** Which part of the source issued a drawing call. *)
Inductive origin : Type := Header | Footer | Body | Stamp.

Inductive cmd : Type :=
| Rect (x y w h : Q)                                   (* doc.rect(x, y, w, h, "F") *)
| Line (x1 y1 x2 y2 : Q)                               (* doc.line *)
| Text (s : json) (x y : Q) (align : option string)    (* doc.text *)
| Image (data : string) (x : json) (y : Q) (w : json) (h : Q)   (* doc.addImage(data, "JPEG", ...) *)
| Table (startY : Q) (head : list string) (body : list (list (option json)))
| TableCont.                                           (* rows the plugin continues on a page it added *)

Definition op : Type := origin * cmd.
Definition page : Type := list op.

Record Doc : Type := mkDoc {
  pages : list page;
  cur : nat;                 (* the 1-based number of the current page *)
  psWidth : Q;               (* doc.internal.pageSize.width *)
  psHeight : Q;              (* doc.internal.pageSize.height *)
  curFontName : string;
  curFontStyle : string;
  curFontSize : Q
}.

Definition with_pages (f : list page -> list page) (d : Doc) : Doc :=
  mkDoc (f (pages d)) (cur d) (psWidth d) (psHeight d) (curFontName d) (curFontStyle d) (curFontSize d).

(** A drawing call lands at the end of the current page.  The call is
    recorded as it is issued; whether the library performs it or throws is
    the matter of [performs] and [call] below. *)
Definition draw (o : origin) (c : cmd) (d : Doc) : Doc :=
  with_pages (alter (fun p => p ++ [(o, c)]) (cur d - 1)%nat) d.

(** [doc.addPage()] appends a page and makes it current. *)
Definition addPage (d : Doc) : Doc :=
  mkDoc (pages d ++ [[]]) (S (length (pages d))) (psWidth d) (psHeight d)
        (curFontName d) (curFontStyle d) (curFontSize d).

Definition setPage (i : nat) (d : Doc) : Doc :=
  mkDoc (pages d) i (psWidth d) (psHeight d) (curFontName d) (curFontStyle d) (curFontSize d).

Definition setFontSize (s : Q) (d : Doc) : Doc :=
  mkDoc (pages d) (cur d) (psWidth d) (psHeight d) (curFontName d) (curFontStyle d) s.

(** [doc.setFont(name)] keeps the current style; [doc.setFont(name, style)]
    sets both. *)
Definition setFont (name : string) (style : option string) (d : Doc) : Doc :=
  mkDoc (pages d) (cur d) (psWidth d) (psHeight d) name
        (match style with Some s => s | None => curFontStyle d end) (curFontSize d).

Definition getNumberOfPages (d : Doc) : nat := length (pages d).

(** ** Options *)

Inductive Format : Type := a4 | letter | legal.
Inductive Orientation : Type := portrait | landscape.

Record image_option : Type := mkImageOption {
  io_path : string; io_x : Q; io_y : Q; io_width : Q; io_height : Q
}.

(** [PDFOptions] after the defaults of the destructuring have been applied
    ([default_options] below holds them). *)
Record PDFOptions : Type := mkOptions {
  format : Format;
  orientation : Orientation;
  fontType : string;
  optFontSize : Q;
  pageNumbering : bool;
  images : list image_option
}.

Definition default_options : PDFOptions :=
  mkOptions a4 portrait "times" 14 true [].

(** ** The collaborators *)

Record World : Type := mkWorld {
  (* jsPDF: width and height in points of a format in an orientation *)
  pageSize : Format -> Orientation -> Q * Q;
  (* doc.splitTextToSize(text, width) under the current font name, style, size *)
  splitTextToSize : string -> string -> Q -> string -> Q -> list string;
  (* jspdf-autotable: pages added after the first one, and lastAutoTable.finalY *)
  autoTable : Q -> list string -> list (list (option json)) -> nat * Q;
  (* axios.get(url) of the document; None when the request rejects *)
  fetch_document : string -> option json;
  (* axios.get(url, arraybuffer) then base64, for the n-th image request;
     None when the try block throws *)
  fetch_image : nat -> json -> option string;
  toUpperCase : string -> string;
  now : N;                                    (* Date.now() *)
  cwd : string;                               (* process.cwd() *)
  path_join : string -> string -> string
}.

(** ** Furniture and page geometry *)

(** [header?.text]: [undefined] when the header is [null] or [undefined]. *)
Definition opt_text (header : option json) : option json :=
  match header with
  | None | Some JNull => None
  | Some h => prop h "text"
  end.

Definition default_header_text : string := "Comprehensive Business Report - 2025".
Definition default_footer_text : string := "Generated by JSON-to-PDF Library".

Definition addHeader (d : Doc) (header : option json) (pageWidth : Q)
    (fontType : string) (fontSize : Q) : Doc * Q :=
  let d := draw Header (Rect 0 0 pageWidth 70) d in
  let d := setFontSize fontSize (setFont fontType None d) in
  let d := draw Header
             (Text (or_else (opt_text header) (JStr default_header_text))
                   (pageWidth / 2) 40 (Some "center")) d in
  let d := draw Header (Line 50 65 (pageWidth - 50) 65) d in
  (d, 90).

Definition addFooter (d : Doc) (footer : option json) (pageWidth pageHeight : Q) : Doc :=
  match footer with
  | Some f =>
      if truthy f then
        let d := draw Footer (Rect 0 (pageHeight - 60) pageWidth 60) d in
        let d := setFontSize 10 d in
        draw Footer
          (Text (or_else (prop f "text") (JStr default_footer_text))
                (pageWidth / 2) (pageHeight - 40) (Some "center")) d
      else d
  | None => d
  end.

(** [a < b] and [a > b] on numbers, as booleans. *)
Definition ltb (a b : Q) : bool :=
  match a ?= b with Lt => true | _ => false end.
Definition gtb (a b : Q) : bool :=
  match a ?= b with Gt => true | _ => false end.

Definition willFitOnPage (y tableHeight pageHeight : Q) : bool :=
  ltb (y + tableHeight) (pageHeight - 100).

(** [jsonData.header] and [jsonData.footer] of a document that is not
    [null]. *)
Definition header_of (jsonData : json) : option json := prop jsonData "header".
Definition footer_of (jsonData : json) : option json := prop jsonData "footer".

Definition ensureSpacing (d : Doc) (y pageHeight spaceNeeded : Q)
    (fontType : string) (fontSize : Q) (jsonData : json) : Doc * Q :=
  if gtb (y + spaceNeeded) (pageHeight - 100) then
    let d := addPage d in
    let d := fst (addHeader d (header_of jsonData) (psWidth d) fontType fontSize) in
    let d := addFooter d (footer_of jsonData) (psWidth d) (psHeight d) in
    (d, 100)
  else (d, y + spaceNeeded).

(** The page break the image and table renderers write out in line. *)
Definition inline_break (d : Doc) (pageWidth pageHeight : Q)
    (fontType : string) (fontSize : Q) (jsonData : json) : Doc * Q :=
  let d := addPage d in
  let d := fst (addHeader d (header_of jsonData) pageWidth fontType fontSize) in
  let d := addFooter d (footer_of jsonData) pageWidth pageHeight in
  (d, 100).

(** ** The walk over the fields *)

Inductive log_entry : Type :=
| FailedToLoadImage (imageUrl : json)     (* console.error of [imageToBase64] *)
| PDFCreated (outputPath : string).       (* console.log of [generatePDF] *)

(** The mutable state of one call: the document, the cursor [y], the
    number of image requests issued so far, and the console. *)
Record LState : Type := mkL {
  st_doc : Doc;
  st_y : Q;
  st_reqs : nat;
  st_console : list log_entry
}.

Inductive kind : Type := KText | KImageTable | KTable | KSkip.

(** [typeof v === "object"]. *)
Definition typeof_object (v : json) : bool :=
  match v with
  | JNull | JArr _ | JObj _ => true
  | JBool _ | JNum _ | JStr _ => false
  end.

Definition includes (x : string) (l : list string) : bool :=
  existsb (String.eqb x) l.

Definition reserved (key : string) : bool := includes key ["header"; "footer"].

Section WithWorld.
Variable W : World.

Definition imageToBase64 (n : nat) (imageUrl : json) : option string :=
  match fetch_image W n imageUrl with
  | Some base64 => Some ("data:image/jpeg;base64," +:+ base64)
  | None => None
  end.

Section Walk.
(** The locals of [generatePDF] that the walk reads. *)
Variables (pageWidth pageHeight : Q) (fontType : string) (fontSize : Q) (jsonData : json).

Definition text_line (acc : Doc * Q) (line : string) : Doc * Q :=
  let '(d, y) := ensureSpacing (fst acc) (snd acc) pageHeight 20 fontType fontSize jsonData in
  let d := draw Body (Text (JStr line) 50 y None) d in
  (d, y + 20).

Definition render_text (st : LState) (key value : string) : LState :=
  let '(d, y) := ensureSpacing (st_doc st) (st_y st) pageHeight 30 fontType fontSize jsonData in
  let d := setFontSize fontSize d in
  let d := setFont fontType (Some "bold") d in
  let d := draw Body (Text (JStr (toUpperCase W key +:+ ":")) 50 y None) d in
  let y := y + 20 in
  let d := setFont fontType (Some "normal") d in
  let splitText :=
    splitTextToSize W (curFontName d) (curFontStyle d) (curFontSize d) value (pageWidth - 100) in
  let '(d, y) := fold_left text_line splitText (d, y) in
  mkL d (y + 20) (st_reqs st) (st_console st).

(** One iteration of [for (const row of value)] in the image branch. *)
Definition image_row (st : LState) (row : json) : outcome LState :=
  url ← get_prop row "url";
  match url with
  | None => Ok st
  | Some u =>
      if truthy u then
        match imageToBase64 (st_reqs st) u with
        | Some imgData =>
            if negb (String.eqb imgData "") then
              need ← num_or (prop row "height") 120;
              let '(d, y) :=
                ensureSpacing (st_doc st) (st_y st) pageHeight need fontType fontSize jsonData in
              h ← num_or (prop row "height") 100;
              let '(d, y) :=
                if gtb (y + h) (pageHeight - 100)
                then inline_break d pageWidth pageHeight fontType fontSize jsonData
                else (d, y) in
              let imgX := match prop row "x" with Some x => x | None => JNum 50 end in
              let d := draw Body (Image imgData imgX y (or_else (prop row "width") (JNum 150)) h) d in
              Ok (mkL d (y + (h + 20)) (S (st_reqs st)) (st_console st))
            else Ok (mkL (st_doc st) (st_y st) (S (st_reqs st)) (st_console st))
        | None =>
            Ok (mkL (st_doc st) (st_y st) (S (st_reqs st))
                    (st_console st ++ [FailedToLoadImage u]))
        end
      else Ok st
  end.

Fixpoint image_rows (st : LState) (rows : list json) : outcome LState :=
  match rows with
  | [] => Ok st
  | row :: rows' => st' ← image_row st row; image_rows st' rows'
  end.

(** The [didDrawPage] hook handed to the table plugin. *)
Definition didDrawPage (d : Doc) : Doc :=
  let d := fst (addHeader d (header_of jsonData) pageWidth fontType fontSize) in
  addFooter d (footer_of jsonData) pageWidth pageHeight.

(** [autoTable(doc, {startY, head, body, theme, didDrawPage})]: the plugin
    draws from [startY] on the current page, adds the pages it needs, and
    calls the hook once on every page it drew on. *)
Definition run_autoTable (d : Doc) (startY : Q) (head : list string)
    (body : list (list (option json))) : Doc * Q :=
  let '(added, finalY) := autoTable W startY head body in
  let d := didDrawPage (draw Body (Table startY head body) d) in
  let d := Nat.iter added (fun d => didDrawPage (draw Body TableCont (addPage d))) d in
  (d, finalY).

(** [value.map(row => headers.map(header => row[header]))]. *)
Definition table_body (headers : list string) (value : list json)
    : outcome (list (list (option json))) :=
  mapM (fun row => mapM (fun header => get_prop row header) headers) value.

Definition estimatedTableHeight (value : list json) : Q :=
  inject_Z (Z.of_nat (length value)) * 25 + 50.

Definition render_table (st : LState) (headers : list string) (value : list json)
    : outcome LState :=
  let '(d, y) :=
    if negb (willFitOnPage (st_y st) (estimatedTableHeight value) pageHeight)
    then inline_break (st_doc st) pageWidth pageHeight fontType fontSize jsonData
    else (st_doc st, st_y st) in
  body ← table_body headers value;
  let '(d, finalY) := run_autoTable d y headers body in
  Ok (mkL d (finalY + 30) (st_reqs st) (st_console st)).

(** The body of [for (const key in jsonData)] for one key. *)
Definition render_field (st : LState) (key : string) (value : json) : outcome LState :=
  if reserved key then Ok st
  else
    match value with
    | JStr s => Ok (render_text st key s)
    | JArr (v0 :: rest) =>
        if typeof_object v0 then
          headers ← object_keys v0;
          if includes "url" headers then image_rows st (v0 :: rest)
          else render_table st headers (v0 :: rest)
        else Ok st
    | _ => Ok st
    end.

Fixpoint render_fields (st : LState) (fields : list (string * json)) : outcome LState :=
  match fields with
  | [] => Ok st
  | (key, value) :: fields' => st' ← render_field st key value; render_fields st' fields'
  end.

End Walk.

(** [new jsPDF({unit: "pt", format, orientation})]: one empty page, the
    library's initial font. *)
Definition new_jsPDF (fmt : Format) (o : Orientation) : Doc :=
  let '(w, h) := pageSize W fmt o in
  mkDoc [[]] 1 w h "helvetica" "normal" 16.

(** The page-numbering loop [for (let i = 1; i <= totalPages; i++)]. *)
Definition stamp (pageWidth pageHeight : Q) (totalPages : nat) (d : Doc) (i : nat) : Doc :=
  let d := setPage i d in
  let d := setFontSize 10 d in
  draw Stamp
    (Text (JStr ("Page " +:+ index_key i +:+ " of " +:+ index_key totalPages))
          (pageWidth - 80) (pageHeight - 30) None) d.

Definition number_pages (pageWidth pageHeight : Q) (d : Doc) : Doc :=
  let totalPages := getNumberOfPages d in
  fold_left (stamp pageWidth pageHeight totalPages) (seq 1 totalPages) d.

Record Artifact : Type := mkArtifact {
  outputPath : string;
  saved : Doc;                 (* the document handed to [doc.save] *)
  logged : list log_entry
}.

(** The document after the walk and the forced footer, before numbering. *)
Definition layout (jsonData : json) (options : PDFOptions) : outcome LState :=
  let jsonData := cleanJSON jsonData in
  let d := new_jsPDF (format options) (orientation options) in
  let pageWidth := psWidth d in
  let pageHeight := psHeight d in
  header ← get_prop jsonData "header";
  let '(d, y) := addHeader d header pageWidth (fontType options) (optFontSize options) in
  let d := setFontSize (optFontSize options) (setFont (fontType options) None d) in
  st ← render_fields pageWidth pageHeight (fontType options) (optFontSize options) jsonData
         (mkL d y 0 []) (for_in jsonData);
  Ok (mkL (addFooter (st_doc st) (footer_of jsonData) pageWidth pageHeight)
          (st_y st) (st_reqs st) (st_console st)).

(** The first statement of the [try] block: a string input is a URL to
    fetch, anything else is the data. *)
Definition load (input : json) : outcome json :=
  match input with
  | JStr url =>                       (* typeof input === "string" *)
      match fetch_document W url with
      | Some data => Ok data
      | None => Throw RequestError
      end
  | _ => Ok input
  end.

(** The [try] block of [generatePDF]; its [catch] logs the error and
    throws it again, so a failure of the block is the failure of the call. *)
Definition generatePDF (input : json) (options : PDFOptions) : outcome Artifact :=
  jsonData ← load input;
  st ← layout jsonData options;
  let outputFileName := "report-" +:+ NilEmpty.string_of_uint (N.to_uint (now W)) +:+ ".pdf" in
  let outputPath := path_join W (cwd W) outputFileName in
  let d0 := new_jsPDF (format options) (orientation options) in
  let d := if pageNumbering options
           then number_pages (psWidth d0) (psHeight d0) (st_doc st)
           else st_doc st in
  Ok (mkArtifact outputPath d (st_console st ++ [PDFCreated outputPath])).

End WithWorld.

(** ** Derived notions used by the statements *)

(** The dispatch of [render_field], read off its conditions: which branch
    a value takes (see [render_field_dispatch]). *)
Definition classify (value : json) : outcome kind :=
  match value with
  | JStr _ => Ok KText
  | JArr (v0 :: _) =>
      if typeof_object v0 then
        headers ← object_keys v0;
        Ok (if includes "url" headers then KImageTable else KTable)
      else Ok KSkip
  | _ => Ok KSkip
  end.

(** The classification in the words of the specification: only a mapping
    as first element makes a table. *)
Definition classify_spec (value : json) : kind :=
  match value with
  | JStr _ => KText
  | JArr (JObj kvs :: _) => if includes "url" (map fst kvs) then KImageTable else KTable
  | _ => KSkip
  end.

(** The classification with JavaScript's reading of "object": an array as
    first element counts, and has no key [url]. *)
Definition classify_objects (value : json) : kind :=
  match value with
  | JStr _ => KText
  | JArr (JObj kvs :: _) => if includes "url" (map fst kvs) then KImageTable else KTable
  | JArr (JArr _ :: _) => KTable
  | _ => KSkip
  end.

Definition first_is_null (value : json) : bool :=
  match value with
  | JArr (JNull :: _) => true
  | _ => false
  end.

(** The current page is the last one: true of a new document and kept by
    every step of the walk (only the numbering pass selects other pages). *)
Definition cur_last (d : Doc) : Prop := cur d = length (pages d) /\ pages d <> [].

Definition last_page (d : Doc) : page := default [] (last (pages d)).

(** The y-coordinate bound on what the walk writes: a text baseline, the
    top edge of an image and the start of a table lie at or above
    [pageHeight - 100]; an image no taller than [pageHeight - 200] also ends
    there. *)
Definition op_ok (pageHeight : Q) (o : op) : Prop :=
  match o with
  | (Body, Text _ _ y _) => y <= pageHeight - 100
  | (Body, Image _ _ y _ h) =>
      y <= pageHeight - 100 /\ (h <= pageHeight - 200 -> y + h <= pageHeight - 100)
  | (Body, Table startY _ _) => startY <= pageHeight - 100
  | _ => True
  end.

Definition doc_ok (pageHeight : Q) (d : Doc) : Prop :=
  Forall (Forall (op_ok pageHeight)) (pages d).

(** The stronger reading: nothing the walk draws reaches below
    [pageHeight - 100], the bottom edge of an image included. *)
Definition op_within (pageHeight : Q) (o : op) : Prop :=
  match o with
  | (Body, Text _ _ y _) => y <= pageHeight - 100
  | (Body, Image _ _ y _ h) => y + h <= pageHeight - 100
  | (Body, Table startY _ _) => startY <= pageHeight - 100
  | _ => True
  end.

Definition image_of (o : op) : option string :=
  match o with
  | (_, Image data _ _ _ _) => Some data
  | _ => None
  end.

(** The images of the document, page after page in drawing order. *)
Definition doc_images (d : Doc) : list string :=
  concat (map (omap image_of) (pages d)).

(** The rows the embedding can run: not [null], and a height that is
    absent, falsy or a number. *)
Definition renderable (row : json) : bool :=
  match row with
  | JNull => false
  | _ =>
      match prop row "height" with
      | Some (JNum _) | None => true
      | Some v => negb (truthy v)
      end
  end.

(** What the image loop is expected to embed: the encodings of the rows
    with a truthy [url] whose request succeeds, [n] counting the requests. *)
Fixpoint fetched_images (W : World) (n : nat) (rows : list json) : list string :=
  match rows with
  | [] => []
  | row :: rows' =>
      match prop row "url" with
      | Some u =>
          if truthy u then
            match imageToBase64 W n u with
            | Some imgData => imgData :: fetched_images W (S n) rows'
            | None => fetched_images W (S n) rows'
            end
          else fetched_images W n rows'
      | None => fetched_images W n rows'
      end
  end.

(** The furniture of a page, as [addHeader] and [addFooter] draw it. *)
Definition header_ops (header : option json) (pageWidth : Q) : page :=
  [ (Header, Rect 0 0 pageWidth 70);
    (Header, Text (or_else (opt_text header) (JStr default_header_text))
                  (pageWidth / 2) 40 (Some "center"));
    (Header, Line 50 65 (pageWidth - 50) 65) ].

Definition footer_ops (footer : option json) (pageWidth pageHeight : Q) : page :=
  if truthy_opt footer then
    [ (Footer, Rect 0 (pageHeight - 60) pageWidth 60);
      (Footer, Text (or_else (match footer with Some f => prop f "text" | None => None end)
                             (JStr default_footer_text))
                    (pageWidth / 2) (pageHeight - 40) (Some "center")) ]
  else [].

Definition furniture (jsonData : json) (pageWidth pageHeight : Q) : page :=
  header_ops (header_of jsonData) pageWidth ++ footer_ops (footer_of jsonData) pageWidth pageHeight.

Definition is_footer (o : op) : bool :=
  match o with
  | (Footer, _) => true
  | _ => false
  end.

Definition is_header (o : op) : bool :=
  match o with
  | (Header, _) => true
  | _ => false
  end.

Definition page_stamp (pageWidth pageHeight : Q) (i totalPages : nat) : op :=
  (Stamp, Text (JStr ("Page " +:+ index_key i +:+ " of " +:+ index_key totalPages))
               (pageWidth - 80) (pageHeight - 30) None).

(** ** A concrete world *)

Definition upper_ascii (c : Ascii.ascii) : Ascii.ascii :=
  let n := Ascii.N_of_ascii c in
  if (N.leb 97 n && N.leb n 122)%bool then Ascii.ascii_of_N (n - 32) else c.

Fixpoint upper (s : string) : string :=
  match s with
  | EmptyString => EmptyString
  | String c s' => String (upper_ascii c) (upper s')
  end.

(** jsPDF's page formats in points; text that never wraps; a table plugin
    that draws 20 points per row on one page; every image request answered
    except the one for ["bad"]. *)
Definition W0 : World :=
  mkWorld
    (fun f o =>
       let '(w, h) :=
         match f with
         | a4 => (59528 # 100, 84189 # 100)
         | letter => (612, 792)
         | legal => (612, 1008)
         end in
       match o with
       | portrait => (w, h)
       | landscape => (h, w)
       end)
    (fun _ _ _ text _ => [text])
    (fun startY head body => (0%nat, startY + 20 * inject_Z (Z.of_nat (S (length body)))))
    (fun _ => None)
    (fun n url => match url with JStr "bad" => None | _ => Some "QUJD" end)
    upper 1700000000000%N "/work" (fun a b => a +:+ "/" +:+ b).

Definition letter_options : PDFOptions := mkOptions letter portrait "times" 14 true [].

(** A new letter page with the header drawn, the cursor at 90. *)
Definition st0 (jsonData : json) : LState :=
  mkL (fst (addHeader (new_jsPDF W0 letter portrait) (header_of jsonData) 612 "times" 14)) 90 0 [].

(** ** The statements under study, and their inputs *)

(** [at_last d l p]: the pages of [d] are [l] followed by the current page
    [p]. *)
Definition at_last (d : Doc) (l : list page) (p : page) : Prop :=
  pages d = l ++ [p] /\ cur d = S (length l).

(** C2 as the specification words it: [ensureSpacing] breaks exactly when
    [willFitOnPage] is false. *)
Definition C2_as_stated (d : Doc) (y n H : Q) (ft : string) (fs : Q) (j : json) : Prop :=
  (willFitOnPage y n H = true <-> y + n < H - 100) /\
  ensureSpacing d y H n ft fs j =
    if willFitOnPage y n H then (d, y + n)
    else inline_break d (psWidth d) (psHeight d) ft fs j.

Definition pageHeight_of (W : World) (options : PDFOptions) : Q :=
  psHeight (new_jsPDF W (format options) (orientation options)).

Definition pageWidth_of (W : World) (options : PDFOptions) : Q :=
  psWidth (new_jsPDF W (format options) (orientation options)).

(** C1 as the specification words it: nothing is drawn below
    [pageHeight - 100], the bottom edge of an image included. *)
Definition C1_as_stated (W : World) (input : json) (options : PDFOptions) : Prop :=
  forall art,
    generatePDF W input options = Ok art ->
    Forall (Forall (op_within (pageHeight_of W options))) (pages (saved art)).

(** One image row of height 1000: taller than a letter page. *)
Definition tall_image_doc : json :=
  JObj [("pics", JArr [JObj [("url", JStr "u"); ("height", JNum 1000)]])].

(** The pages after a table field, from the pages [l ++ [p]] before it.
    The call [(Body, Table startY head body)] is the plugin drawing the head
    row and then the body rows from [startY] on the page that is current:
    the head row and the first body row start on the page that holds the
    call.  The estimate and the test are written out in arithmetic. *)
Definition table_preflight (W : World) (pw ph : Q) (j : json) (st : LState)
    (value : list json) (st' : LState) (l : list page) (p : page) : Prop :=
  exists headers body,
    object_keys (default JNull (head value)) = Ok headers /\
    table_body headers value = Ok body /\
    head body = (fun row => map (prop row) headers) <$> head value /\
    let estimate := inject_Z (Z.of_nat (length value)) * 25 + 50 in
    (ph - 100 <= st_y st + estimate ->
       pages (st_doc st') =
         l ++ [p]
           ++ [furniture j pw ph ++ (Body, Table 100 headers body) :: furniture j pw ph]
           ++ repeat ((Body, TableCont) :: furniture j pw ph)
                     (fst (autoTable W 100 headers body)) /\
       st_y st' = snd (autoTable W 100 headers body) + 30) /\
    (st_y st + estimate < ph - 100 ->
       pages (st_doc st') =
         l ++ [p ++ (Body, Table (st_y st) headers body) :: furniture j pw ph]
           ++ repeat ((Body, TableCont) :: furniture j pw ph)
                     (fst (autoTable W (st_y st) headers body)) /\
       st_y st' = snd (autoTable W (st_y st) headers body) + 30).

(** A declared footer and one table of thirty rows: estimated at
    30 * 25 + 50 = 800, more than a letter page has left below y = 90. *)
Definition table_rows : list json := repeat (JObj [("a", JNum 1)]) 30.

Definition table_doc : json :=
  JObj [("footer", JObj [("text", JStr "F")]); ("t", JArr table_rows)].

(** C5 as the specification words it. *)
Definition C5_as_stated (W : World) (pw ph : Q) (ft : string) (fs : Q) (j : json)
    (st : LState) (key : string) (value : json) : Prop :=
  reserved key = false ->
  classify value = Ok (classify_spec value) /\
  (classify_spec value = KSkip -> render_field W pw ph ft fs j st key value = Ok st).

(** [s] is the decimal numeral of [n]: its characters read as digits are
    the digits of [n], without a leading zero. *)
Definition decimal (s : string) (n : nat) : Prop :=
  NilEmpty.uint_of_string s = Some (Nat.to_uint n).

(** The stamp of a page: the text "Page a of b" near the bottom-right
    corner, [a] and [b] the numerals of the page's number and of the total. *)
Definition stamp_of (pw ph : Q) (i totalPages : nat) (o : op) : Prop :=
  exists a b,
    decimal a i /\ decimal b totalPages /\
    o = (Stamp, Text (JStr ("Page " +:+ a +:+ " of " +:+ b)) (pw - 80) (ph - 30) None).

(** What the numbering pass leaves, against the pages [before] it. *)
Definition numbered (pw ph : Q) (before after : list page) : Prop :=
  length after = length before /\
  (forall i p, before !! i = Some p ->
     exists o, stamp_of pw ph (S i) (length after) o /\ after !! i = Some (p ++ [o])) /\
  (forall i p', after !! i = Some p' ->
     exists o, stamp_of pw ph (S i) (length after) o /\ last p' = Some o).

(** Where [image_row] puts a fetched image, when [ensureSpacing] is asked
    for the row's height or else [fallback]. *)
Definition image_placed (pw ph : Q) (ft : string) (fs : Q) (j : json) (fallback : Q)
    (st : LState) (row : json) (st' : LState) (img : string) : Prop :=
  exists need h,
    num_or (prop row "height") fallback = Ok need /\
    num_or (prop row "height") 100 = Ok h /\
    let y1 := snd (ensureSpacing (st_doc st) (st_y st) ph need ft fs j) in
    let yd := if gtb (y1 + h) (ph - 100) then 100 else y1 in
    last (last_page (st_doc st'))
      = Some (Body, Image img (default (JNum 50) (prop row "x")) yd
                          (or_else (prop row "width") (JNum 150)) h) /\
    st_y st' = yd + (h + 20).

(** C7 as the specification words it: space is ensured for the row's
    height or else the default height 100. *)
Definition C7_as_stated (W : World) (pw ph : Q) (ft : string) (fs : Q) (j : json)
    (st : LState) (row : json) (img : string) : Prop :=
  exists st',
    image_row W pw ph ft fs j st row = Ok st' /\
    image_placed pw ph ft fs j 100 st row st' img.

Definition is_null (v : json) : bool :=
  match v with
  | JNull => true
  | _ => false
  end.

(** The field values the embedding runs to the end: an image table of
    renderable rows, a table without [null] rows, or anything that is
    drawn as text or skipped. *)
Definition supported (value : json) : bool :=
  match classify value, value with
  | Ok KImageTable, JArr rows => forallb renderable rows
  | Ok KTable, JArr rows => forallb (fun row => negb (is_null row)) rows
  | Ok _, _ => true
  | _, _ => false
  end.

(** ** Content, apart from where it lands *)

(** What a drawing call of the walk carries, its position left out. *)
Inductive item : Type :=
| IText (s : json)
| IImage (data : string)
| ITable (head : list string) (body : list (list (option json))).

Definition item_of (o : op) : option item :=
  match o with
  | (Body, Text s _ _ _) => Some (IText s)
  | (Body, Image data _ _ _ _) => Some (IImage data)
  | (Body, Table _ head body) => Some (ITable head body)
  | _ => None
  end.

(** The content of the document, page after page in drawing order. *)
Definition doc_items (d : Doc) : list item :=
  concat (map (omap item_of) (pages d)).

(** The rows of an image table that cost a request: those with a truthy
    [url]. *)
Fixpoint requests (rows : list json) : nat :=
  match rows with
  | [] => 0
  | row :: rows' => (if truthy_opt (prop row "url") then 1 else 0) + requests rows'
  end.

(** The diagnostics the image loop is expected to print: one for each row
    with a truthy [url] whose request fails, [n] counting the requests. *)
Fixpoint failures (W : World) (n : nat) (rows : list json) : list log_entry :=
  match rows with
  | [] => []
  | row :: rows' =>
      match prop row "url" with
      | Some u =>
          if truthy u then
            match imageToBase64 W n u with
            | Some _ => failures W (S n) rows'
            | None => FailedToLoadImage u :: failures W (S n) rows'
            end
          else failures W n rows'
      | None => failures W n rows'
      end
  end.

(** The content a document is expected to produce, field after field: the
    label and the wrapped lines of a string, the fetched images of an image
    table, the head and body of a table; nothing for the reserved keys and
    for what is skipped.  [n] counts the image requests made before. *)
Fixpoint content (W : World) (ft : string) (fs pw : Q) (n : nat)
    (fields : list (string * json)) : list item :=
  match fields with
  | [] => []
  | (key, value) :: fields' =>
      if reserved key then content W ft fs pw n fields'
      else
        match value, classify value with
        | JStr s, _ =>
            IText (JStr (toUpperCase W key +:+ ":"))
              :: map (fun line => IText (JStr line))
                     (splitTextToSize W ft "normal" fs s (pw - 100))
              ++ content W ft fs pw n fields'
        | JArr rows, Ok KImageTable =>
            map IImage (fetched_images W n rows)
              ++ content W ft fs pw (n + requests rows) fields'
        | JArr (v0 :: rest), Ok KTable =>
            match object_keys v0 with
            | Ok headers =>
                match table_body headers (v0 :: rest) with
                | Ok body => ITable headers body :: content W ft fs pw n fields'
                | _ => content W ft fs pw n fields'
                end
            | _ => content W ft fs pw n fields'
            end
        | _, _ => content W ft fs pw n fields'
        end
  end.

(** The diagnostics a document is expected to print, field after field. *)
Fixpoint diagnostics (W : World) (n : nat) (fields : list (string * json)) : list log_entry :=
  match fields with
  | [] => []
  | (key, value) :: fields' =>
      if reserved key then diagnostics W n fields'
      else
        match value, classify value with
        | JArr rows, Ok KImageTable =>
            failures W n rows ++ diagnostics W (n + requests rows) fields'
        | _, _ => diagnostics W n fields'
        end
  end.

Definition is_stamp (o : op) : bool :=
  match o with
  | (Stamp, _) => true
  | _ => false
  end.

(** The calls of a text block that fits on the page: the label 30 below the
    cursor [y], the lines 40 apart from 70 below it. *)
Fixpoint line_ops (y : Q) (lines : list string) : page :=
  match lines with
  | [] => []
  | line :: lines' => (Body, Text (JStr line) 50 (y + 20) None) :: line_ops (y + 20 + 20) lines'
  end.

(** The image requests the fields of a document cost. *)
Fixpoint field_requests (fields : list (string * json)) : nat :=
  match fields with
  | [] => 0
  | (key, value) :: fields' =>
      (if reserved key then 0
       else
         match value, classify value with
         | JArr rows, Ok KImageTable => requests rows
         | _, _ => 0
         end) + field_requests fields'
  end.

(** A note, three pictures, and another note.  The second picture cannot
    be fetched, and its [height] is not a number. *)
Definition gallery_doc : json :=
  JObj [("note", JStr "n");
        ("pics", JArr [JObj [("url", JStr "first")];
                       JObj [("url", JStr "bad"); ("height", JStr "tall")];
                       JObj [("url", JStr "third")]]);
        ("more", JStr "m")].

(** ** Calls the canvas refuses *)

(** jsPDF and the table plugin check the arguments of a drawing call and
    throw an [Error] of their own on those they refuse (a text that is not
    a string, image data they cannot read, ...).  [draw] records the call
    as it is issued; a [canvas] tells which calls the library performs. *)
Definition canvas : Type := cmd -> bool.

(** Every call recorded in the document is one the canvas performs. *)
Definition performs (C : canvas) (d : Doc) : bool :=
  forallb (forallb (fun o : op => C (snd o))) (pages d).

(** How the promise of [generatePDF] settles. *)
Inductive verdict : Type :=
| Resolves (art : Artifact)
| Rejects
| NotCovered.

(** The call as its caller sees it.  Every drawing call of a run stays
    recorded in the saved document, so a [try] block that reaches its end
    here does so in the library exactly when the canvas performs all of
    them: the first call it refuses throws instead, and the [catch] block
    throws that error again.  When the block itself raises an exception the
    promise is rejected, with that exception or with the error of a call
    the canvas refused before it. *)
Definition call (C : canvas) (W : World) (input : json) (options : PDFOptions) : verdict :=
  match generatePDF W input options with
  | Ok art => if performs C (saved art) then Resolves art else Rejects
  | Throw _ => Rejects
  | Unsupported => NotCovered
  end.

(** A canvas that refuses a text that is not a string, an image without
    bytes after the prefix of its encoding, and an image whose height is
    not positive. *)
Definition strict_canvas : canvas := fun c =>
  match c with
  | Text (JStr _) _ _ _ => true
  | Text _ _ _ _ => false
  | Image data _ _ _ h => negb (String.eqb data "data:image/jpeg;base64,") && ltb 0 h
  | _ => true
  end.

Arguments inline_break : simpl never.
Arguments ensureSpacing : simpl never.
Arguments run_autoTable : simpl never.
Arguments draw : simpl never.

(** * Properties *)

(** ** Comparisons *)

Lemma ltb_lt (a b : Q) : ltb a b = true <-> a < b.
Proof.
  unfold ltb. rewrite Qlt_alt.
  destruct (a ?= b); split; congruence.
Qed.

Lemma gtb_gt (a b : Q) : gtb a b = true <-> b < a.
Proof.
  unfold gtb. change (b < a) with (a > b). rewrite Qgt_alt.
  destruct (a ?= b); split; congruence.
Qed.

Lemma gtb_le (a b : Q) : gtb a b = false <-> a <= b.
Proof.
  unfold gtb. rewrite Qle_alt.
  destruct (a ?= b); split; congruence.
Qed.

Lemma ltb_ge (a b : Q) : ltb a b = false <-> b <= a.
Proof.
  rewrite <- not_true_iff_false, ltb_lt. split.
  - apply Qnot_lt_le.
  - apply Qle_not_lt.
Qed.

(** ** The canvas: where a drawing call lands *)

Lemma cur_last_at_last (d : Doc) : cur_last d <-> exists l p, at_last d l p.
Proof.
  unfold cur_last, at_last. split.
  - intros [Hc Hne].
    destruct (pages d) as [|p0 ps _] using rev_ind; [done|].
    exists ps, p0. split; [done|].
    rewrite Hc, length_app. simpl. lia.
  - intros (l & p & Hp & Hc). rewrite Hp, Hc, length_app. simpl.
    split; [lia|]. by destruct l.
Qed.

Lemma at_last_last_page (d : Doc) l p : at_last d l p -> last_page d = p.
Proof. intros [Hp _]. unfold last_page. by rewrite Hp, last_snoc. Qed.

Lemma at_last_draw (d : Doc) l p o c :
  at_last d l p -> at_last (draw o c d) l (p ++ [(o, c)]).
Proof.
  intros [Hp Hc]. unfold at_last, draw, with_pages. simpl.
  rewrite Hp, Hc. split; [|done].
  replace (S (length l) - 1)%nat with (length l + 0)%nat by lia.
  by rewrite alter_app_r.
Qed.

Lemma at_last_addPage (d : Doc) : at_last (addPage d) (pages d) [].
Proof. by unfold at_last, addPage. Qed.

Lemma at_last_setFont (d : Doc) l p name style :
  at_last d l p -> at_last (setFont name style d) l p.
Proof. done. Qed.

Lemma at_last_setFontSize (d : Doc) l p s :
  at_last d l p -> at_last (setFontSize s d) l p.
Proof. done. Qed.

Lemma at_last_addHeader (d : Doc) l p header pw ft fs :
  at_last d l p -> at_last (fst (addHeader d header pw ft fs)) l (p ++ header_ops header pw).
Proof.
  intros H. unfold addHeader, header_ops. simpl fst.
  eapply at_last_draw in H.
  eapply (at_last_setFontSize _ _ _ fs), (at_last_setFont _ _ _ ft None) in H.
  do 2 eapply at_last_draw in H.
  rewrite <- !app_assoc in H. exact H.
Qed.

Lemma at_last_addFooter (d : Doc) l p footer pw ph :
  at_last d l p -> at_last (addFooter d footer pw ph) l (p ++ footer_ops footer pw ph).
Proof.
  intros H. unfold addFooter, footer_ops.
  destruct footer as [f|]; simpl; [|by rewrite app_nil_r].
  destruct (truthy f); [|by rewrite app_nil_r].
  eapply at_last_draw in H.
  eapply (at_last_setFontSize _ _ _ 10) in H.
  eapply at_last_draw in H.
  rewrite <- !app_assoc in H. exact H.
Qed.

Lemma at_last_inline_break (d : Doc) pw ph ft fs j :
  at_last (fst (inline_break d pw ph ft fs j)) (pages d) (furniture j pw ph).
Proof.
  unfold inline_break, furniture. simpl fst.
  apply (at_last_addFooter _ _ _ (footer_of j) pw ph).
  apply (at_last_addHeader _ _ [] (header_of j) pw ft fs).
  apply at_last_addPage.
Qed.

Lemma psWidth_addHeader d header pw ft fs : psWidth (fst (addHeader d header pw ft fs)) = psWidth d.
Proof. done. Qed.

Lemma psHeight_addHeader d header pw ft fs : psHeight (fst (addHeader d header pw ft fs)) = psHeight d.
Proof. done. Qed.

(** The break of [ensureSpacing] is the in-line break at the document's
    own page size. *)
Lemma ensureSpacing_unfold d y H n ft fs j :
  ensureSpacing d y H n ft fs j =
    if gtb (y + n) (H - 100) then inline_break d (psWidth d) (psHeight d) ft fs j
    else (d, y + n).
Proof. done. Qed.

Lemma inline_break_pages d pw ph ft fs j :
  pages (fst (inline_break d pw ph ft fs j)) = pages d ++ [furniture j pw ph].
Proof. apply at_last_inline_break. Qed.

Lemma inline_break_neq d pw ph ft fs j y : inline_break d pw ph ft fs j <> (d, y).
Proof.
  intros E. apply (f_equal (fun r => length (pages (fst r)))) in E.
  rewrite inline_break_pages, length_app in E. simpl in E. lia.
Qed.

(** ** Page geometry: [willFitOnPage] and [ensureSpacing] (C2) *)

(** C2, counterexample: on a letter page (height 792) with the cursor at 662
    and 30 units needed, the sum is exactly 692 = 792 - 100: [willFitOnPage]
    is false, yet [ensureSpacing] returns 692 without a page break. *)
Lemma C2_boundary_counterexample :
  ~ C2_as_stated (new_jsPDF W0 letter portrait) 662 30 792 "times" 14 (JObj []).
Proof.
  intros [_ E]. vm_compute in E. discriminate E.
Qed.

(** C2, amended: [willFitOnPage] is true iff [y + needed < pageHeight - 100];
    [ensureSpacing] breaks the page (one new page with the furniture, cursor
    100) iff [y + needed > pageHeight - 100], and returns [y + needed] with
    the document untouched iff [y + needed <= pageHeight - 100]; the two
    disagree exactly at [y + needed == pageHeight - 100]. *)
Theorem C2_ensureSpacing_breaks_iff_exceeds
    (d : Doc) (y n H : Q) (ft : string) (fs : Q) (j : json) :
  (willFitOnPage y n H = true <-> y + n < H - 100) /\
  (ensureSpacing d y H n ft fs j = inline_break d (psWidth d) (psHeight d) ft fs j
     <-> H - 100 < y + n) /\
  (ensureSpacing d y H n ft fs j = (d, y + n) <-> y + n <= H - 100) /\
  (willFitOnPage y n H = false /\ ensureSpacing d y H n ft fs j = (d, y + n)
     <-> y + n == H - 100) /\
  pages (fst (inline_break d (psWidth d) (psHeight d) ft fs j))
    = pages d ++ [furniture j (psWidth d) (psHeight d)] /\
  snd (inline_break d (psWidth d) (psHeight d) ft fs j) = 100.
Proof.
  assert (Hfit : willFitOnPage y n H = true <-> y + n < H - 100)
    by apply ltb_lt.
  assert (Hbrk : ensureSpacing d y H n ft fs j
                   = inline_break d (psWidth d) (psHeight d) ft fs j
                 <-> H - 100 < y + n).
  { rewrite ensureSpacing_unfold, <- gtb_gt.
    destruct (gtb (y + n) (H - 100)); split; try done.
    intros E. symmetry in E. by apply inline_break_neq in E. }
  assert (Hkeep : ensureSpacing d y H n ft fs j = (d, y + n) <-> y + n <= H - 100).
  { rewrite ensureSpacing_unfold, <- gtb_le.
    destruct (gtb (y + n) (H - 100)); split; try done.
    intros E. by apply inline_break_neq in E. }
  split; [exact Hfit|]. split; [exact Hbrk|]. split; [exact Hkeep|].
  split; [split|split].
  - intros [Hf Hk]. apply Hkeep in Hk.
    apply ltb_ge in Hf. by apply Qle_antisym.
  - intros E. split; [apply ltb_ge | apply Hkeep]; lra.
  - apply inline_break_pages.
  - done.
Qed.

(** ** The bound on what the walk writes (C1) *)

Section Bound.
Variable H : Q.
Hypothesis H_200 : 200 <= H.

Lemma doc_ok_draw d o c : doc_ok H d -> op_ok H (o, c) -> doc_ok H (draw o c d).
Proof.
  intros Hd Ho. unfold doc_ok, draw. simpl.
  apply Forall_alter; [done|].
  intros p _ Hp. apply Forall_app. split; [done|]. by constructor.
Qed.

Lemma doc_ok_addPage d : doc_ok H d -> doc_ok H (addPage d).
Proof.
  intros Hd. unfold doc_ok, addPage. simpl.
  apply Forall_app. split; [done|]. by repeat constructor.
Qed.

Lemma doc_ok_addHeader d header pw ft fs :
  doc_ok H d -> doc_ok H (fst (addHeader d header pw ft fs)).
Proof.
  intros Hd. unfold addHeader. simpl fst.
  apply doc_ok_draw; [|done]. apply doc_ok_draw; [|done].
  change (doc_ok H (draw Header (Rect 0 0 pw 70) d)).
  by apply doc_ok_draw.
Qed.

Lemma doc_ok_addFooter d footer pw ph : doc_ok H d -> doc_ok H (addFooter d footer pw ph).
Proof.
  intros Hd. unfold addFooter.
  destruct footer as [f|]; [|done]. destruct (truthy f); [|done].
  apply doc_ok_draw; [|done].
  change (doc_ok H (draw Footer (Rect 0 (ph - 60) pw 60) d)).
  by apply doc_ok_draw.
Qed.

Lemma doc_ok_inline_break d pw ph ft fs j :
  doc_ok H d -> doc_ok H (fst (inline_break d pw ph ft fs j)).
Proof.
  intros Hd. unfold inline_break. simpl fst.
  by apply doc_ok_addFooter, doc_ok_addHeader, doc_ok_addPage.
Qed.

(** Whatever the cursor was, [ensureSpacing] hands back a position at or
    above the bound. *)
Lemma ensureSpacing_ok d y n ft fs j :
  doc_ok H d ->
  doc_ok H (fst (ensureSpacing d y H n ft fs j)) /\
  snd (ensureSpacing d y H n ft fs j) <= H - 100.
Proof.
  intros Hd. rewrite ensureSpacing_unfold.
  destruct (gtb (y + n) (H - 100)) eqn:E.
  - split; [by apply doc_ok_inline_break|]. simpl. lra.
  - split; [done|]. simpl. by apply gtb_le.
Qed.

Lemma text_line_ok ft fs j acc line :
  doc_ok H (fst acc) -> doc_ok H (fst (text_line H ft fs j acc line)).
Proof.
  intros Hd. unfold text_line.
  destruct (ensureSpacing_ok (fst acc) (snd acc) 20 ft fs j Hd) as [Hd' Hy].
  destruct (ensureSpacing _ _ _ _ _ _ _) as [d' y']. simpl in *.
  by apply doc_ok_draw.
Qed.

Lemma text_lines_ok ft fs j lines acc :
  doc_ok H (fst acc) -> doc_ok H (fst (fold_left (text_line H ft fs j) lines acc)).
Proof.
  revert acc. induction lines as [|line lines IH]; intros acc Hd; [done|].
  simpl. by apply IH, text_line_ok.
Qed.

Lemma render_text_ok W pw ft fs j st key value :
  doc_ok H (st_doc st) -> doc_ok H (st_doc (render_text W pw H ft fs j st key value)).
Proof.
  intros Hd. unfold render_text.
  destruct (ensureSpacing_ok (st_doc st) (st_y st) 30 ft fs j Hd) as [Hd' Hy].
  destruct (ensureSpacing _ _ _ _ _ _ _) as [d' y']. simpl in Hd', Hy.
  match goal with
  | |- context [fold_left ?f ?ls ?a] =>
      pose proof (text_lines_ok ft fs j ls a) as Hl;
      destruct (fold_left f ls a) as [d2 y2]
  end.
  simpl. apply Hl. simpl.
  change (doc_ok H (draw Body (Text (JStr (toUpperCase W key +:+ ":")) 50 y' None) d')).
  by apply doc_ok_draw.
Qed.

Lemma image_row_ok W pw ft fs j st row st' :
  image_row W pw H ft fs j st row = Ok st' ->
  doc_ok H (st_doc st) -> doc_ok H (st_doc st').
Proof.
  unfold image_row. intros E Hd.
  destruct (get_prop row "url") as [[u|]| |]; simpl in E; try discriminate;
    [|by inversion E; subst].
  destruct (truthy u); [|by inversion E; subst].
  destruct (imageToBase64 W (st_reqs st) u) as [img|]; [|by inversion E; subst].
  destruct (negb (String.eqb img "")); [|by inversion E; subst].
  destruct (num_or (prop row "height") 120) as [need| |]; simpl in E; try discriminate.
  destruct (ensureSpacing_ok (st_doc st) (st_y st) need ft fs j Hd) as [Hd1 Hy1].
  destruct (ensureSpacing _ _ _ _ _ _ _) as [d1 y1]. simpl in Hd1, Hy1.
  destruct (num_or (prop row "height") 100) as [h| |]; simpl in E; try discriminate.
  destruct (gtb (y1 + h) (H - 100)) eqn:Eg.
  - pose proof (doc_ok_inline_break d1 pw H ft fs j Hd1) as Hd2.
    destruct (inline_break d1 pw H ft fs j) as [d2 y2] eqn:Eb.
    assert (y2 = 100) by (by apply (f_equal snd) in Eb). subst y2.
    inversion E; subst; simpl.
    apply doc_ok_draw; [done|]. simpl. split; lra.
  - inversion E; subst; simpl.
    apply doc_ok_draw; [done|]. simpl. apply gtb_le in Eg. split; [lra|done].
Qed.

Lemma image_rows_ok W pw ft fs j rows st st' :
  image_rows W pw H ft fs j st rows = Ok st' ->
  doc_ok H (st_doc st) -> doc_ok H (st_doc st').
Proof.
  revert st. induction rows as [|row rows IH]; intros st E Hd; simpl in E.
  - by inversion E; subst.
  - destruct (image_row W pw H ft fs j st row) as [st1| |] eqn:E1; simpl in E; try discriminate.
    eapply IH; [done|]. by eapply image_row_ok.
Qed.

Lemma didDrawPage_ok pw ft fs j d : doc_ok H d -> doc_ok H (didDrawPage pw H ft fs j d).
Proof. intros Hd. unfold didDrawPage. by apply doc_ok_addFooter, doc_ok_addHeader. Qed.

Lemma run_autoTable_ok W pw ft fs j d startY head body :
  doc_ok H d -> startY <= H - 100 ->
  doc_ok H (fst (run_autoTable W pw H ft fs j d startY head body)).
Proof.
  intros Hd Hy. unfold run_autoTable.
  destruct (autoTable W startY head body) as [added finalY]. simpl.
  induction added as [|k IH]; simpl.
  - by apply didDrawPage_ok, doc_ok_draw.
  - by apply didDrawPage_ok, doc_ok_draw; [apply doc_ok_addPage|].
Qed.

Lemma estimatedTableHeight_ge value : 50 <= estimatedTableHeight value.
Proof.
  unfold estimatedTableHeight.
  assert (0 <= inject_Z (Z.of_nat (length value))).
  { unfold Qle. simpl. lia. }
  nra.
Qed.

Lemma render_table_ok W pw ft fs j st headers value st' :
  render_table W pw H ft fs j st headers value = Ok st' ->
  doc_ok H (st_doc st) -> doc_ok H (st_doc st').
Proof.
  unfold render_table. intros E Hd.
  pose proof (estimatedTableHeight_ge value) as Hest.
  assert (Hstart : forall d y,
    (if negb (willFitOnPage (st_y st) (estimatedTableHeight value) H)
     then inline_break (st_doc st) pw H ft fs j else (st_doc st, st_y st)) = (d, y) ->
    doc_ok H d /\ y <= H - 100).
  { intros d y. destruct (willFitOnPage _ _ _) eqn:Ef; cbn [negb]; intros Eq.
    - apply ltb_lt in Ef. inversion Eq; subst. split; [done|lra].
    - pose proof (doc_ok_inline_break (st_doc st) pw H ft fs j Hd) as Hd1.
      rewrite Eq in Hd1. apply (f_equal snd) in Eq. simpl in Eq. subst y.
      split; [done|lra]. }
  destruct (if negb _ then _ else _) as [d y].
  destruct (Hstart d y eq_refl) as [Hd1 Hy].
  destruct (table_body headers value) as [body| |]; cbn [mbind outcome_bind] in E;
    try discriminate.
  pose proof (run_autoTable_ok W pw ft fs j d y headers body Hd1 Hy) as Ha.
  destruct (run_autoTable _ _ _ _ _ _ _ _ _ _) as [d2 finalY].
  by inversion E; subst.
Qed.

Lemma render_field_ok W pw ft fs j st key value st' :
  render_field W pw H ft fs j st key value = Ok st' ->
  doc_ok H (st_doc st) -> doc_ok H (st_doc st').
Proof.
  unfold render_field. intros E Hd.
  destruct (reserved key); [by inversion E; subst|].
  destruct value as [| | |s|[|v0 rest]|]; try (by inversion E; subst).
  - inversion E; subst. by apply render_text_ok.
  - destruct (typeof_object v0); [|by inversion E; subst].
    destruct (object_keys v0) as [headers| |]; cbn [mbind outcome_bind] in E;
      try discriminate.
    destruct (includes "url" headers).
    + by eapply image_rows_ok.
    + by eapply render_table_ok.
Qed.

Lemma render_fields_ok W pw ft fs j fields st st' :
  render_fields W pw H ft fs j st fields = Ok st' ->
  doc_ok H (st_doc st) -> doc_ok H (st_doc st').
Proof.
  revert st. induction fields as [|[key value] fields IH]; intros st E Hd; simpl in E.
  - by inversion E; subst.
  - destruct (render_field W pw H ft fs j st key value) as [st1| |] eqn:E1;
      simpl in E; try discriminate.
    eapply IH; [done|]. by eapply render_field_ok.
Qed.

Lemma stamp_ok pw ph total d i : doc_ok H d -> doc_ok H (stamp pw ph total d i).
Proof.
  intros Hd. unfold stamp.
  apply doc_ok_draw; [|done]. exact Hd.
Qed.

Lemma number_pages_ok pw ph d : doc_ok H d -> doc_ok H (number_pages pw ph d).
Proof.
  intros Hd. unfold number_pages.
  generalize (getNumberOfPages d) at 1 as total.
  generalize (seq 1 (getNumberOfPages d)) as idxs.
  intros idxs. revert d Hd.
  induction idxs as [|i idxs IH]; intros d Hd total; [done|].
  simpl. by apply IH, stamp_ok.
Qed.

End Bound.

Lemma new_jsPDF_pages W fmt o : pages (new_jsPDF W fmt o) = [[]].
Proof. unfold new_jsPDF. by destruct (pageSize W fmt o). Qed.

Lemma new_jsPDF_cur W fmt o : cur (new_jsPDF W fmt o) = 1%nat.
Proof. unfold new_jsPDF. by destruct (pageSize W fmt o). Qed.

Lemma layout_ok W jsonData options st :
  200 <= pageHeight_of W options ->
  layout W jsonData options = Ok st ->
  doc_ok (pageHeight_of W options) (st_doc st).
Proof.
  intros H200 E. unfold layout in E. fold (pageHeight_of W options) in E.
  destruct (get_prop (cleanJSON jsonData) "header") as [header| |];
    cbn [mbind outcome_bind] in E; try discriminate.
  destruct (addHeader _ header _ _ _) as [d y] eqn:Eh.
  destruct (render_fields _ _ _ _ _ _ _ _) as [st1| |] eqn:Ef;
    cbn [mbind outcome_bind] in E; try discriminate.
  inversion E; subst; simpl.
  apply doc_ok_addFooter.
  eapply render_fields_ok; [done|exact Ef|]. simpl.
  replace d with (fst (addHeader (new_jsPDF W (format options) (orientation options))
                         header (psWidth (new_jsPDF W (format options) (orientation options)))
                         (fontType options) (optFontSize options)))
    by (by rewrite Eh).
  apply doc_ok_addHeader. unfold doc_ok. rewrite new_jsPDF_pages.
  by repeat constructor.
Qed.

(** C1, counterexample: an image of height 1000 on a letter page (height
    792).  [ensureSpacing] breaks the page, the secondary check breaks it
    again, and the image is drawn at y = 100 on the third page: it reaches
    y = 1100, past 692 = 792 - 100. *)
Lemma C1_tall_image_counterexample :
  (exists art p,
     generatePDF W0 tall_image_doc letter_options = Ok art /\
     pages (saved art) !! 2%nat = Some p /\
     (Body, Image "data:image/jpeg;base64,QUJD" (JNum 50) 100 (JNum 150) 1000) ∈ p) /\
  ~ C1_as_stated W0 tall_image_doc letter_options.
Proof.
  assert (Hrun : exists art p,
     generatePDF W0 tall_image_doc letter_options = Ok art /\
     pages (saved art) !! 2%nat = Some p /\
     (Body, Image "data:image/jpeg;base64,QUJD" (JNum 50) 100 (JNum 150) 1000) ∈ p).
  { eexists _, _. split; [vm_compute; reflexivity|].
    split; [reflexivity|].
    apply list_elem_of_lookup. exists 3%nat. reflexivity. }
  split; [exact Hrun|].
  destruct Hrun as (art & p & Hgen & Hp & Hin).
  intros Hc. specialize (Hc art Hgen).
  rewrite Forall_lookup in Hc. specialize (Hc _ _ Hp).
  rewrite Forall_forall in Hc. specialize (Hc _ Hin).
  vm_compute in Hc. by apply Hc.
Qed.

(** C1, amended: on a page at least 200 high, every write of the walk
    starts at or above [pageHeight - 100] (text baselines, the top edge of
    images, the start of tables), and an image no taller than
    [pageHeight - 200] also ends at or above it. *)
Theorem C1_writes_start_above_bottom_margin
    (W : World) (input : json) (options : PDFOptions) (art : Artifact) :
  200 <= pageHeight_of W options ->
  generatePDF W input options = Ok art ->
  doc_ok (pageHeight_of W options) (saved art).
Proof.
  intros H200 E. unfold generatePDF in E.
  destruct (load W input) as [jsonData| |] eqn:Eload;
    cbn [mbind outcome_bind] in E; try discriminate.
  destruct (layout W jsonData options) as [st| |] eqn:El;
    cbn [mbind outcome_bind] in E; try discriminate.
  inversion E; subst; simpl.
  pose proof (layout_ok W jsonData options st H200 El) as Hd.
  destruct (pageNumbering options); [|done].
  by apply number_pages_ok.
Qed.

Lemma C1_writes_start_above_bottom_margin_witness :
  exists art,
    generatePDF W0 tall_image_doc letter_options = Ok art /\
    doc_ok 792 (saved art).
Proof.
  eexists. split; [vm_compute; reflexivity|].
  apply (C1_writes_start_above_bottom_margin W0 tall_image_doc letter_options).
  - vm_compute. discriminate.
  - vm_compute. reflexivity.
Defined.

(** ** The dispatch of a field *)

Lemma render_field_dispatch W pw ph ft fs j st key value :
  reserved key = false ->
  render_field W pw ph ft fs j st key value =
    k ← classify value;
    match k, value with
    | KText, JStr s => Ok (render_text W pw ph ft fs j st key s)
    | KImageTable, JArr rows => image_rows W pw ph ft fs j st rows
    | KTable, JArr (v0 :: rest) =>
        headers ← object_keys v0; render_table W pw ph ft fs j st headers (v0 :: rest)
    | _, _ => Ok st
    end.
Proof.
  intros Hr. unfold render_field, classify. rewrite Hr.
  destruct value as [| | |s|[|v0 rest]|]; try done.
  destruct (typeof_object v0); [|done].
  destruct (object_keys v0) as [headers| |]; cbn [mbind outcome_bind]; try done.
  by destruct (includes "url" headers).
Qed.

Lemma classify_table_inv value :
  classify (JArr value) = Ok KTable ->
  exists v0 rest headers,
    value = v0 :: rest /\ object_keys v0 = Ok headers /\ includes "url" headers = false.
Proof.
  unfold classify. destruct value as [|v0 rest]; [done|].
  destruct (typeof_object v0); [|done].
  destruct (object_keys v0) as [headers| |] eqn:Ek; cbn [mbind outcome_bind]; try done.
  destruct (includes "url" headers) eqn:E; [done|].
  intros _. by exists v0, rest, headers.
Qed.

(** ** The table pre-flight (C3) *)

Lemma at_last_didDrawPage pw ph ft fs j d l p :
  at_last d l p -> at_last (didDrawPage pw ph ft fs j d) l (p ++ furniture j pw ph).
Proof.
  intros H. unfold didDrawPage, furniture. rewrite app_assoc.
  by apply at_last_addFooter, at_last_addHeader.
Qed.

Lemma continuation_pages pw ph ft fs j added d l p :
  at_last d l p ->
  exists l' p',
    at_last (Nat.iter added
               (fun d => didDrawPage pw ph ft fs j (draw Body TableCont (addPage d))) d)
            l' p'
    /\ l' ++ [p'] = l ++ [p] ++ repeat ((Body, TableCont) :: furniture j pw ph) added.
Proof.
  intros H. induction added as [|k IH].
  - exists l, p. by split.
  - destruct IH as (l' & p' & Hat & Heq).
    exists (l' ++ [p']), ((Body, TableCont) :: furniture j pw ph). split.
    + cbn [Nat.iter]. destruct Hat as [<- _].
      apply (at_last_didDrawPage pw ph ft fs j _ _ [(Body, TableCont)]).
      apply (at_last_draw _ _ []), at_last_addPage.
    + rewrite Heq. cbn [repeat]. rewrite repeat_cons.
      by rewrite <- !app_assoc.
Qed.

Lemma run_autoTable_pages W pw ph ft fs j d l p startY head body :
  at_last d l p ->
  pages (fst (run_autoTable W pw ph ft fs j d startY head body)) =
    l ++ [p ++ (Body, Table startY head body) :: furniture j pw ph]
      ++ repeat ((Body, TableCont) :: furniture j pw ph) (fst (autoTable W startY head body)).
Proof.
  intros H. unfold run_autoTable.
  destruct (autoTable W startY head body) as [added finalY]. simpl fst.
  eapply at_last_draw, at_last_didDrawPage in H.
  rewrite <- app_assoc in H. simpl in H.
  destruct (continuation_pages pw ph ft fs j added _ _ _ H) as (l' & p' & [-> _] & Heq).
  exact Heq.
Qed.

Lemma row_cells_eq (headers : list string) (row : json) (cells : list (option json)) :
  mapM (fun header => get_prop row header) headers = Ok cells ->
  cells = map (prop row) headers.
Proof.
  revert cells. induction headers as [|h headers IH]; intros cells; cbn [mapM map].
  - by intros [= <-].
  - destruct (get_prop row h) as [c| |] eqn:Eg; cbn [mbind outcome_bind]; try done.
    destruct (mapM _ headers) as [cs| |]; cbn [mbind outcome_bind]; try done.
    intros [= <-]. rewrite (IH cs eq_refl).
    destruct row; try discriminate; by injection Eg as <-.
Qed.

Lemma table_body_head (headers : list string) (value : list json)
    (body : list (list (option json))) :
  table_body headers value = Ok body ->
  head body = (fun row => map (prop row) headers) <$> head value.
Proof.
  unfold table_body. destruct value as [|v0 rest]; cbn [mapM].
  - by intros [= <-].
  - destruct (mapM (fun header => get_prop v0 header) headers) as [cells| |] eqn:Ec;
      cbn [mbind outcome_bind]; try done.
    destruct (mapM _ rest) as [rows| |]; cbn [mbind outcome_bind]; try done.
    intros [= <-]. cbn [head fmap option_fmap option_map].
    by rewrite (row_cells_eq _ _ _ Ec).
Qed.

(** C3: a table field is estimated at [rowCount * 25 + 50] before anything
    of it is drawn.  When [y + estimate >= pageHeight - 100] the pages
    before it stay as they were, a new page is added, and the one call that
    draws the table (its head row, and a body whose first row is the first
    element's cells) is issued at y = 100 on that page, after nothing but
    the furniture.  When [y + estimate < pageHeight - 100] the same call is
    issued at the cursor on the current page.  How many rows the plugin
    gets onto the page it starts on is the plugin's. *)
Theorem C3_table_preflight
    (W : World) (pw ph : Q) (ft : string) (fs : Q) (j : json)
    (st st' : LState) (key : string) (value : list json) (l : list page) (p : page) :
  reserved key = false ->
  classify (JArr value) = Ok KTable ->
  at_last (st_doc st) l p ->
  render_field W pw ph ft fs j st key (JArr value) = Ok st' ->
  table_preflight W pw ph j st value st' l p.
Proof.
  intros Hr Hc Hat E.
  rewrite render_field_dispatch, Hc in E by done. cbn [mbind outcome_bind] in E.
  apply classify_table_inv in Hc as (v0 & rest & headers & -> & Hk & _).
  rewrite Hk in E. cbn [mbind outcome_bind] in E.
  unfold render_table in E.
  unfold table_preflight. exists headers.
  destruct (table_body headers (v0 :: rest)) as [body| |] eqn:Eb.
  2,3: by destruct (if negb _ then _ else _).
  exists body. split; [done|]. split; [done|].
  split; [by apply table_body_head|].
  change (inject_Z (Z.of_nat (length (v0 :: rest))) * 25 + 50)
    with (estimatedTableHeight (v0 :: rest)).
  cbv zeta.
  destruct (willFitOnPage (st_y st) (estimatedTableHeight (v0 :: rest)) ph) eqn:Efit;
    cbn [negb] in E; unfold willFitOnPage in Efit.
  - apply ltb_lt in Efit. split.
    { intros Hge. exfalso. apply (Qle_not_lt _ _ Hge), Efit. }
    intros _.
    cbn [mbind outcome_bind] in E.
    pose proof (run_autoTable_pages W pw ph ft fs j (st_doc st) l p (st_y st) headers body Hat)
      as Hp.
    unfold run_autoTable in E, Hp.
    destruct (autoTable W (st_y st) headers body) as [added finalY].
    inversion E; subst; simpl in *. by split.
  - apply ltb_ge in Efit. split.
    2: { intros Hlt. exfalso. apply (Qle_not_lt _ _ Efit), Hlt. }
    intros _.
    pose proof (at_last_inline_break (st_doc st) pw ph ft fs j) as Hb.
    destruct (inline_break (st_doc st) pw ph ft fs j) as [d1 y1] eqn:Ei.
    assert (y1 = 100) by (by apply (f_equal snd) in Ei). subst y1.
    cbn [mbind outcome_bind] in E. simpl fst in Hb.
    pose proof (run_autoTable_pages W pw ph ft fs j d1 _ _ 100 headers body Hb) as Hp.
    unfold run_autoTable in E, Hp.
    destruct (autoTable W 100 headers body) as [added finalY].
    inversion E; subst; simpl in *. split; [|done].
    rewrite Hp. destruct Hat as [-> _]. by rewrite <- !app_assoc.
Qed.

Lemma C3_table_preflight_witness :
  exists st',
    render_field W0 612 792 "times" 14 table_doc (st0 table_doc) "t" (JArr table_rows) = Ok st' /\
    table_preflight W0 612 792 table_doc (st0 table_doc) table_rows st'
      [] (header_ops (header_of table_doc) 612) /\
    792 - 100 <= st_y (st0 table_doc) + (inject_Z (Z.of_nat (length table_rows)) * 25 + 50) /\
    pages (st_doc st')
    = [header_ops (header_of table_doc) 612;
       furniture table_doc 612 792
         ++ (Body, Table 100 ["a"] (repeat [Some (JNum 1)] 30))
         :: furniture table_doc 612 792].
Proof.
  eexists. split; [vm_compute; reflexivity|]. split.
  - apply (C3_table_preflight W0 612 792 "times" 14 table_doc _ _ "t").
    + reflexivity.
    + vm_compute. reflexivity.
    + vm_compute. split; reflexivity.
    + vm_compute. reflexivity.
  - split; [vm_compute; discriminate|]. vm_compute. reflexivity.
Defined.

(** ** Classification (C5) *)

(** C5, counterexample: an array whose first element is [null] is not
    skipped: [Object.keys(null)] throws a TypeError.  (And an array whose
    first element is an array is drawn as a table.) *)
Lemma C5_null_first_element_counterexample :
  ~ C5_as_stated W0 612 792 "times" 14 (JObj []) (st0 (JObj [])) "t" (JArr [JNull]) /\
  render_field W0 612 792 "times" 14 (JObj []) (st0 (JObj [])) "t" (JArr [JNull])
    = Throw TypeError /\
  classify (JArr [JArr [JNum 1]]) = Ok KTable.
Proof.
  split; [|split]; [|reflexivity|reflexivity].
  intros Hc. destruct (Hc eq_refl) as [E _]. vm_compute in E. discriminate E.
Qed.

Lemma index_key_not_url (i : nat) : index_key i <> "url".
Proof. unfold index_key. by destruct (Nat.to_uint i). Qed.

Lemma indices_without_url (l : list nat) : includes "url" (map index_key l) = false.
Proof.
  induction l as [|i l IH]; [done|].
  unfold includes in *. cbn [map existsb]. rewrite IH, orb_false_r.
  apply String.eqb_neq. intros E. by apply (index_key_not_url i).
Qed.

(** C5, amended: unless the value is an array whose first element is
    [null], the field is text if the value is a string; an image table if
    it is a non-empty array whose first element is a mapping with a key
    [url]; a table if the first element is a mapping without that key, or
    an array; and skipped in every other case, a skipped field leaving the
    state as it was and raising nothing. *)
Theorem C5_classification (value : json) :
  first_is_null value = false ->
  classify value = Ok (classify_objects value) /\
  forall W pw ph ft fs j st key,
    classify_objects value = KSkip ->
    render_field W pw ph ft fs j st key value = Ok st.
Proof.
  intros Hn.
  assert (Hc : classify value = Ok (classify_objects value)).
  { destruct value as [| | |s|[|v0 rest]|]; try done.
    destruct v0 as [| | | |vs|kvs]; try done.
    unfold classify, classify_objects. cbn [typeof_object object_keys mbind outcome_bind].
    by rewrite indices_without_url. }
  split; [exact Hc|].
  intros W pw ph ft fs j st key Hs.
  destruct (reserved key) eqn:Hr.
  - unfold render_field. by rewrite Hr.
  - rewrite render_field_dispatch, Hc, Hs by done. done.
Qed.

Lemma C5_classification_witness :
  classify (JArr [JObj [("url", JStr "u")]]) = Ok KImageTable /\
  classify (JArr []) = Ok KSkip.
Proof.
  split.
  - apply (C5_classification (JArr [JObj [("url", JStr "u")]])). reflexivity.
  - apply (C5_classification (JArr [])). reflexivity.
Defined.

(** ** The [images] option (C9) *)

(** C9: two runs whose options agree on everything but [images] take the
    same layout decisions on every document and return the same outcome:
    the same path, saved document and console, or the same failure. *)
Theorem C9_images_option_inert
    (W : World) (input : json) (options1 options2 : PDFOptions) :
  format options1 = format options2 ->
  orientation options1 = orientation options2 ->
  fontType options1 = fontType options2 ->
  optFontSize options1 = optFontSize options2 ->
  pageNumbering options1 = pageNumbering options2 ->
  (forall jsonData, layout W jsonData options1 = layout W jsonData options2) /\
  generatePDF W input options1 = generatePDF W input options2.
Proof.
  destruct options1 as [f1 o1 ft1 fs1 pn1 images1].
  destruct options2 as [f2 o2 ft2 fs2 pn2 images2].
  cbn [format orientation fontType optFontSize pageNumbering].
  intros -> -> -> -> ->. split; [intros jsonData|]; reflexivity.
Qed.

Lemma C9_images_option_inert_witness :
  generatePDF W0 table_doc (mkOptions letter portrait "times" 14 true [])
  = generatePDF W0 table_doc
      (mkOptions letter portrait "times" 14 true [mkImageOption "logo.png" 10 10 64 64]).
Proof.
  apply (C9_images_option_inert W0 table_doc
           (mkOptions letter portrait "times" 14 true [])
           (mkOptions letter portrait "times" 14 true [mkImageOption "logo.png" 10 10 64 64]));
    reflexivity.
Defined.

(** ** Rows without a usable [url] (C10) *)

(** C10: a row whose [url] is absent or falsy is passed over: no request,
    no diagnostic, no drawing, the cursor where it was; the loop goes on
    with the next row from the same state. *)
Theorem C10_row_without_url_is_passed_over
    (W : World) (pw ph : Q) (ft : string) (fs : Q) (j : json)
    (st : LState) (row : json) (rest : list json) (url : option json) :
  get_prop row "url" = Ok url ->
  truthy_opt url = false ->
  image_row W pw ph ft fs j st row = Ok st /\
  image_rows W pw ph ft fs j st (row :: rest) = image_rows W pw ph ft fs j st rest.
Proof.
  intros Hu Hf.
  assert (E : image_row W pw ph ft fs j st row = Ok st).
  { unfold image_row. rewrite Hu. cbn [mbind outcome_bind].
    destruct url as [u|]; [|done]. simpl in Hf. by rewrite Hf. }
  split; [exact E|]. cbn [image_rows]. by rewrite E.
Qed.

Lemma C10_row_without_url_is_passed_over_witness :
  image_row W0 612 792 "times" 14 (JObj []) (st0 (JObj []))
    (JObj [("url", JStr ""); ("height", JNum 40)]) = Ok (st0 (JObj [])) /\
  image_rows W0 612 792 "times" 14 (JObj []) (st0 (JObj []))
    [JObj [("url", JStr ""); ("height", JNum 40)]; JObj [("caption", JStr "c")]]
  = image_rows W0 612 792 "times" 14 (JObj []) (st0 (JObj [])) [JObj [("caption", JStr "c")]].
Proof.
  apply (C10_row_without_url_is_passed_over W0 612 792 "times" 14 (JObj []) (st0 (JObj []))
           (JObj [("url", JStr ""); ("height", JNum 40)]) [JObj [("caption", JStr "c")]]
           (Some (JStr ""))).
  - reflexivity.
  - reflexivity.
Defined.

(** ** The numbering pass (C8) *)

Lemma stamp_pages pw ph total d i :
  pages (stamp pw ph total d i)
  = alter (fun p => p ++ [page_stamp pw ph i total]) (i - 1)%nat (pages d).
Proof. done. Qed.

Lemma stamps_length pw ph total idxs d :
  length (pages (fold_left (stamp pw ph total) idxs d)) = length (pages d).
Proof.
  revert d. induction idxs as [|i idxs IH]; intros d; [done|].
  simpl. by rewrite IH, stamp_pages, length_alter.
Qed.

(** After the loop has run over the page numbers [a+1 .. a+n], exactly
    those pages carry one more call, their stamp. *)
Lemma stamps_lookup pw ph total n a d k :
  pages (fold_left (stamp pw ph total) (seq (S a) n) d) !! k =
    if decide (a <= k < a + n)%nat
    then (fun p => p ++ [page_stamp pw ph (S k) total]) <$> pages d !! k
    else pages d !! k.
Proof.
  revert a d. induction n as [|n IH]; intros a d.
  - simpl. case_decide; [lia|done].
  - cbn [seq fold_left]. rewrite IH, stamp_pages.
    replace (S a - 1)%nat with a by lia.
    destruct (decide (a = k)) as [->|Hne].
    + rewrite list_lookup_alter_eq.
      repeat case_decide; try lia. done.
    + rewrite list_lookup_alter_ne by done.
      repeat case_decide; try lia; done.
Qed.

Lemma number_pages_lookup pw ph d k p :
  pages d !! k = Some p ->
  pages (number_pages pw ph d) !! k
  = Some (p ++ [page_stamp pw ph (S k) (length (pages d))]).
Proof.
  intros Hk. unfold number_pages, getNumberOfPages.
  rewrite stamps_lookup, Hk.
  apply lookup_lt_Some in Hk.
  case_decide; [done|]. unfold page in *. lia.
Qed.

Lemma number_pages_length pw ph d : length (pages (number_pages pw ph d)) = length (pages d).
Proof. apply stamps_length. Qed.

Lemma decimal_index_key (n : nat) : decimal (index_key n) n.
Proof. apply NilEmpty.usu. Qed.

Lemma stamp_of_page_stamp pw ph i total : stamp_of pw ph i total (page_stamp pw ph i total).
Proof.
  exists (index_key i), (index_key total).
  split; [apply decimal_index_key|]. split; [apply decimal_index_key|done].
Qed.

(** C8: with [pageNumbering] on, the saved document has the pages that the
    walk over the loaded document left, as many as before, each with one
    more call at its end: the text "Page i of N" at
    [(pageWidth - 80, pageHeight - 30)], where [i] and [N] are the decimal
    numerals of the page's 1-based index and of the final number of
    pages. *)
Theorem C8_every_page_stamped
    (W : World) (input : json) (options : PDFOptions) (art : Artifact) :
  pageNumbering options = true ->
  generatePDF W input options = Ok art ->
  exists jsonData st,
    load W input = Ok jsonData /\
    layout W jsonData options = Ok st /\
    numbered (pageWidth_of W options) (pageHeight_of W options)
             (pages (st_doc st)) (pages (saved art)).
Proof.
  intros Hn E. unfold generatePDF in E.
  destruct (load W input) as [jsonData| |] eqn:Eload;
    cbn [mbind outcome_bind] in E; try discriminate.
  destruct (layout W jsonData options) as [st| |] eqn:El;
    cbn [mbind outcome_bind] in E; try discriminate.
  rewrite Hn in E. inversion E; subst; clear E. cbn [saved].
  exists jsonData, st. split; [done|]. split; [done|].
  fold (pageWidth_of W options) (pageHeight_of W options).
  set (pw := pageWidth_of W options). set (ph := pageHeight_of W options).
  assert (Hlen := number_pages_length pw ph (st_doc st)).
  split; [done|]. split.
  - intros i p Hi. eexists. split; [apply stamp_of_page_stamp|].
    rewrite Hlen. by apply number_pages_lookup.
  - intros i p' Hi.
    destruct (pages (st_doc st) !! i) as [p|] eqn:Hb.
    + rewrite (number_pages_lookup pw ph _ _ _ Hb) in Hi.
      inversion Hi; subst. eexists. split; [apply stamp_of_page_stamp|].
      rewrite Hlen. apply last_snoc.
    + apply lookup_lt_Some in Hi. apply lookup_ge_None in Hb.
      unfold page in *. lia.
Qed.

Lemma C8_every_page_stamped_witness :
  exists art,
    generatePDF W0 table_doc letter_options = Ok art /\
    (exists jsonData st,
       load W0 table_doc = Ok jsonData /\
       layout W0 jsonData letter_options = Ok st /\
       numbered 612 792 (pages (st_doc st)) (pages (saved art))) /\
    map last (pages (saved art))
    = [Some (Stamp, Text (JStr "Page 1 of 2") 532 762 None);
       Some (Stamp, Text (JStr "Page 2 of 2") 532 762 None)].
Proof.
  eexists. split; [vm_compute; reflexivity|]. split.
  - apply (C8_every_page_stamped W0 table_doc letter_options).
    + reflexivity.
    + vm_compute. reflexivity.
  - vm_compute. reflexivity.
Defined.

(** ** Furniture on every page (C4) *)

Lemma snoc_split {A : Type} (l' : list A) (p' : A) (l : list A) (p x : A) (rest : list A) :
  l' ++ [p'] = (l ++ [p]) ++ [x] ++ rest -> exists l2, l' = l ++ p :: l2.
Proof.
  destruct rest as [|z r _] using rev_ind; intros E.
  - exists []. by apply app_inj_tail in E as [-> _].
  - exists (x :: r). rewrite !app_assoc in E.
    apply app_inj_tail in E as [-> _]. by rewrite <- !app_assoc.
Qed.

Lemma run_autoTable_at_last W pw ph ft fs j d l p startY head body :
  at_last d l p ->
  exists l' p',
    at_last (fst (run_autoTable W pw ph ft fs j d startY head body)) l' p' /\
    l' ++ [p'] =
      l ++ [p ++ (Body, Table startY head body) :: furniture j pw ph]
        ++ repeat ((Body, TableCont) :: furniture j pw ph) (fst (autoTable W startY head body)).
Proof.
  intros H. unfold run_autoTable.
  destruct (autoTable W startY head body) as [added finalY]. simpl fst.
  eapply at_last_draw, at_last_didDrawPage in H.
  rewrite <- app_assoc in H.
  exact (continuation_pages pw ph ft fs j added _ _ _ H).
Qed.

(** A table that does not fit: the page it was on is closed as it stands,
    and the current page of the result is a later one. *)
Lemma render_table_break W pw ph ft fs j st headers value body l p :
  at_last (st_doc st) l p ->
  willFitOnPage (st_y st) (estimatedTableHeight value) ph = false ->
  table_body headers value = Ok body ->
  exists st' l' p',
    render_table W pw ph ft fs j st headers value = Ok st' /\
    at_last (st_doc st') (l ++ p :: l') p'.
Proof.
  intros Hat Hfit Hbody. unfold render_table. rewrite Hfit. cbn [negb].
  pose proof (at_last_inline_break (st_doc st) pw ph ft fs j) as Hb.
  destruct (inline_break (st_doc st) pw ph ft fs j) as [d1 y1]. cbn [fst] in Hb.
  rewrite Hbody. cbn [mbind outcome_bind].
  destruct (run_autoTable_at_last W pw ph ft fs j d1 _ _ y1 headers body Hb)
    as (l' & p' & Hat' & Heq).
  destruct (run_autoTable W pw ph ft fs j d1 y1 headers body) as [d2 finalY].
  cbn [fst] in Hat'.
  destruct Hat as [Hp _]. rewrite Hp in Heq.
  destruct (snoc_split _ _ _ _ _ _ Heq) as [l2 ->].
  eexists. exists l2, p'. split; [reflexivity|exact Hat'].
Qed.

(** C4, the code at the failing input, whatever the table plugin does: the
    document declares a footer, the table pre-flight breaks to a second
    page, and the forced [addFooter] at the end lands on the last page; the
    first page keeps its header and never gets a footer. *)
Theorem C4_first_page_without_footer (W : World) :
  pageSize W letter portrait = (612, 792) ->
  exists art p1,
    generatePDF W table_doc letter_options = Ok art /\
    truthy_opt (footer_of table_doc) = true /\
    (2 <= length (pages (saved art)))%nat /\
    pages (saved art) !! 0%nat = Some p1 /\
    existsb is_footer p1 = false /\
    existsb is_header p1 = true.
Proof.
  intros Hsize.
  set (d0 := mkDoc [[]] 1 612 792 "helvetica" "normal" 16).
  assert (Hnew : new_jsPDF W letter portrait = d0)
    by (unfold new_jsPDF; by rewrite Hsize).
  set (d1 := setFontSize 14 (setFont "times" None (fst (addHeader d0 None 612 "times" 14)))).
  assert (Hat1 : at_last d1 [] (header_ops None 612)).
  { apply at_last_setFontSize, at_last_setFont.
    apply (at_last_addHeader d0 [] [] None 612 "times" 14). by split. }
  assert (Hbody : table_body ["a"] table_rows = Ok (repeat [Some (JNum 1)] 30))
    by (vm_compute; reflexivity).
  destruct (render_table_break W 612 792 "times" 14 table_doc (mkL d1 90 0 []) ["a"]
              table_rows _ [] (header_ops None 612) Hat1 eq_refl Hbody)
    as (st' & l' & p' & Et & Hat').
  assert (El : layout W table_doc letter_options
               = Ok (mkL (addFooter (st_doc st') (footer_of table_doc) 612 792)
                         (st_y st') (st_reqs st') (st_console st'))).
  { unfold layout. cbn [format orientation letter_options fontType optFontSize].
    rewrite Hnew. change (cleanJSON table_doc) with table_doc.
    change (get_prop table_doc "header") with (Ok undefined).
    cbn [mbind outcome_bind]. cbn [addHeader psWidth psHeight d0].
    change (for_in table_doc)
      with [("footer", JObj [("text", JStr "F")]); ("t", JArr table_rows)].
    cbn [render_fields]. change (render_field W 612 792 "times" 14 table_doc _ "footer" _)
      with (Ok (mkL d1 90 0 [])).
    cbn [mbind outcome_bind].
    rewrite render_field_dispatch by done.
    change (classify (JArr table_rows)) with (Ok KTable).
    cbn [mbind outcome_bind]. unfold table_rows at 1. cbn [repeat].
    change (object_keys (JObj [("a", JNum 1)])) with (Ok ["a"]).
    cbn [mbind outcome_bind].
    match goal with
    | |- context [render_table ?w ?a ?b ?c ?e ?f ?g ?h ?i] =>
        change (render_table w a b c e f g h i)
          with (render_table W 612 792 "times" 14 table_doc (mkL d1 90 0 []) ["a"] table_rows)
    end.
    rewrite Et. reflexivity. }
  eapply (at_last_addFooter _ _ _ (footer_of table_doc) 612 792) in Hat'.
  destruct Hat' as [Hpages _]. cbn [app] in Hpages.
  unfold generatePDF. change (load W table_doc) with (Ok table_doc).
  cbn [mbind outcome_bind]. rewrite El. cbn [mbind outcome_bind pageNumbering letter_options format orientation st_doc].
  rewrite Hnew. cbn [psWidth psHeight d0].
  eexists _, _. split; [reflexivity|]. cbn [saved].
  split; [reflexivity|]. split.
  - rewrite number_pages_length, Hpages. cbn [length]. rewrite length_app. simpl. lia.
  - split; [|split].
    + apply number_pages_lookup. by rewrite Hpages.
    + reflexivity.
    + reflexivity.
Qed.

Lemma C4_first_page_without_footer_witness :
  exists art p1,
    generatePDF W0 table_doc letter_options = Ok art /\
    truthy_opt (footer_of table_doc) = true /\
    (2 <= length (pages (saved art)))%nat /\
    pages (saved art) !! 0%nat = Some p1 /\
    existsb is_footer p1 = false /\
    existsb is_header p1 = true.
Proof. apply (C4_first_page_without_footer W0). reflexivity. Defined.

(** ** The image rows (C7) *)

Lemma doc_images_at_last d l p :
  at_last d l p -> doc_images d = concat (map (omap image_of) l) ++ omap image_of p.
Proof.
  intros [Hp _]. unfold doc_images.
  rewrite Hp, map_app, concat_app. simpl. by rewrite app_nil_r.
Qed.

Lemma furniture_no_images j pw ph : omap image_of (furniture j pw ph) = [].
Proof.
  unfold furniture, header_ops, footer_ops.
  by destruct (truthy_opt (footer_of j)).
Qed.

Lemma inline_break_images d pw ph ft fs j :
  doc_images (fst (inline_break d pw ph ft fs j)) = doc_images d.
Proof.
  unfold doc_images. rewrite inline_break_pages, map_app, concat_app.
  cbn [map concat]. by rewrite furniture_no_images, !app_nil_r.
Qed.

Lemma cur_last_inline_break d pw ph ft fs j : cur_last (fst (inline_break d pw ph ft fs j)).
Proof. apply cur_last_at_last. do 2 eexists. apply at_last_inline_break. Qed.

Lemma ensureSpacing_images d y H n ft fs j :
  doc_images (fst (ensureSpacing d y H n ft fs j)) = doc_images d.
Proof.
  rewrite ensureSpacing_unfold. destruct (gtb _ _); [|done].
  apply inline_break_images.
Qed.

Lemma cur_last_ensureSpacing d y H n ft fs j :
  cur_last d -> cur_last (fst (ensureSpacing d y H n ft fs j)).
Proof.
  intros Hc. rewrite ensureSpacing_unfold. destruct (gtb _ _); [|done].
  apply cur_last_inline_break.
Qed.

Lemma cur_last_draw d o c : cur_last d -> cur_last (draw o c d).
Proof.
  rewrite !cur_last_at_last. intros (l & p & Hat).
  do 2 eexists. by apply at_last_draw.
Qed.

Lemma last_page_draw d o c : cur_last d -> last (last_page (draw o c d)) = Some (o, c).
Proof.
  rewrite cur_last_at_last. intros (l & p & Hat).
  rewrite (at_last_last_page _ _ _ (at_last_draw _ _ _ o c Hat)).
  apply last_snoc.
Qed.

Lemma draw_image_images d img x y w h :
  cur_last d -> doc_images (draw Body (Image img x y w h) d) = doc_images d ++ [img].
Proof.
  rewrite cur_last_at_last. intros (l & p & Hat).
  rewrite (doc_images_at_last _ _ _ (at_last_draw _ _ _ Body (Image img x y w h) Hat)).
  rewrite (doc_images_at_last _ _ _ Hat), omap_app. simpl.
  by rewrite app_assoc.
Qed.

Lemma renderable_get_prop row key : renderable row = true -> get_prop row key = Ok (prop row key).
Proof. by destruct row. Qed.

Lemma renderable_num_or row dflt :
  renderable row = true -> exists q, num_or (prop row "height") dflt = Ok q.
Proof.
  unfold renderable, num_or. intros Hr.
  destruct row; try done;
    (destruct (prop _ "height") as [[| | | | |]|]; simpl in *;
     repeat match goal with
            | |- context [if ?b then _ else _] => destruct b
            end; try done; eauto).
Qed.

Lemma imageToBase64_nonempty W n u img :
  imageToBase64 W n u = Some img -> negb (String.eqb img "") = true.
Proof.
  unfold imageToBase64. destruct (fetch_image W n u); [|done].
  intros E. inversion E; subst. done.
Qed.

Lemma image_row_drawn W pw ph ft fs j st row u img :
  cur_last (st_doc st) ->
  renderable row = true ->
  prop row "url" = Some u ->
  truthy u = true ->
  imageToBase64 W (st_reqs st) u = Some img ->
  exists st',
    image_row W pw ph ft fs j st row = Ok st' /\
    cur_last (st_doc st') /\
    st_reqs st' = S (st_reqs st) /\
    st_console st' = st_console st /\
    doc_images (st_doc st') = doc_images (st_doc st) ++ [img] /\
    image_placed pw ph ft fs j 120 st row st' img.
Proof.
  intros Hc Hr Hu Ht Hi. unfold image_row, image_placed.
  rewrite (renderable_get_prop _ _ Hr), Hu. cbn [mbind outcome_bind].
  rewrite Ht, Hi, (imageToBase64_nonempty _ _ _ _ Hi).
  destruct (renderable_num_or row 120 Hr) as [need ->].
  destruct (renderable_num_or row 100 Hr) as [h ->].
  cbn [mbind outcome_bind].
  pose proof (cur_last_ensureSpacing (st_doc st) (st_y st) ph need ft fs j Hc) as Hc1.
  pose proof (ensureSpacing_images (st_doc st) (st_y st) ph need ft fs j) as Hi1.
  destruct (ensureSpacing (st_doc st) (st_y st) ph need ft fs j) as [d1 y1] eqn:Ee.
  cbn [fst snd mbind outcome_bind] in *.
  destruct (gtb (y1 + h) (ph - 100)) eqn:Eg.
  - pose proof (cur_last_inline_break d1 pw ph ft fs j) as Hc2.
    pose proof (inline_break_images d1 pw ph ft fs j) as Hi2.
    destruct (inline_break d1 pw ph ft fs j) as [d2 y2] eqn:Eb.
    assert (y2 = 100) by (by apply (f_equal snd) in Eb). subst y2.
    cbn [fst] in *.
    eexists. split; [reflexivity|]. cbn [st_doc st_y st_reqs st_console].
    split; [by apply cur_last_draw|]. split; [done|]. split; [done|].
    split; [by rewrite draw_image_images, Hi2, Hi1|].
    exists need, h. split; [done|]. split; [done|].
    cbv zeta. rewrite Ee. cbn [snd]. rewrite Eg.
    split; [by apply last_page_draw|done].
  - eexists. split; [reflexivity|]. cbn [st_doc st_y st_reqs st_console].
    split; [by apply cur_last_draw|]. split; [done|]. split; [done|].
    split; [by rewrite draw_image_images, Hi1|].
    exists need, h. split; [done|]. split; [done|].
    cbv zeta. rewrite Ee. cbn [snd]. rewrite Eg.
    split; [by apply last_page_draw|done].
Qed.

Lemma image_row_failed W pw ph ft fs j st row u :
  row <> JNull ->
  prop row "url" = Some u ->
  truthy u = true ->
  imageToBase64 W (st_reqs st) u = None ->
  image_row W pw ph ft fs j st row
  = Ok (mkL (st_doc st) (st_y st) (S (st_reqs st)) (st_console st ++ [FailedToLoadImage u])).
Proof.
  intros Hn Hu Ht Hi. unfold image_row.
  replace (get_prop row "url") with (Ok (prop row "url")) by (by destruct row).
  rewrite Hu. cbn [mbind outcome_bind]. by rewrite Ht, Hi.
Qed.

Lemma image_rows_app W pw ph ft fs j rows1 rows2 st :
  image_rows W pw ph ft fs j st (rows1 ++ rows2)
  = (st1 ← image_rows W pw ph ft fs j st rows1; image_rows W pw ph ft fs j st1 rows2).
Proof.
  revert st. induction rows1 as [|row rows1 IH]; intros st; [done|].
  cbn [app image_rows].
  destruct (image_row W pw ph ft fs j st row) as [st1| |]; cbn [mbind outcome_bind]; [|done..].
  apply IH.
Qed.

(** C7, counterexample: a fetched row without [height], the cursor at 90 on
    a letter page.  [ensureSpacing] is asked for 120, so the image is drawn
    at y = 210; with the default height 100 it would be at y = 190. *)
Lemma C7_default_spacing_counterexample :
  image_row W0 612 792 "times" 14 (JObj []) (st0 (JObj [])) (JObj [("url", JStr "u")])
  = Ok (mkL (draw Body (Image "data:image/jpeg;base64,QUJD" (JNum 50) 210 (JNum 150) 100)
                  (st_doc (st0 (JObj []))))
            (210 + (100 + 20)) 1 []) /\
  ~ C7_as_stated W0 612 792 "times" 14 (JObj []) (st0 (JObj []))
      (JObj [("url", JStr "u")]) "data:image/jpeg;base64,QUJD".
Proof.
  split; [reflexivity|].
  intros (st' & E & need & h & Hn & Hh & Hl & _).
  vm_compute in E. inversion E; subst; clear E.
  vm_compute in Hn, Hh. inversion Hn; inversion Hh; subst.
  vm_compute in Hl. discriminate Hl.
Qed.

(** C7, amended: for a fetched row, [ensureSpacing] is called with the
    row's height or, when the row gives none, with 120; the image is then
    drawn at the position that call (and the secondary check) leaves, with
    x = 50, width = 150 and height = 100 unless the row overrides them, and
    the cursor moves to the drawing position plus the drawn height plus 20. *)
Theorem C7_fetched_image_placement
    (W : World) (pw ph : Q) (ft : string) (fs : Q) (j : json)
    (st : LState) (row u : json) (img : string) :
  cur_last (st_doc st) ->
  renderable row = true ->
  prop row "url" = Some u ->
  truthy u = true ->
  imageToBase64 W (st_reqs st) u = Some img ->
  exists st',
    image_row W pw ph ft fs j st row = Ok st' /\
    image_placed pw ph ft fs j 120 st row st' img.
Proof.
  intros Hc Hr Hu Ht Hi.
  destruct (image_row_drawn W pw ph ft fs j st row u img Hc Hr Hu Ht Hi)
    as (st' & E & _ & _ & _ & _ & Hp).
  by exists st'.
Qed.

Lemma C7_fetched_image_placement_witness :
  exists st',
    image_row W0 612 792 "times" 14 (JObj []) (st0 (JObj []))
      (JObj [("url", JStr "u"); ("x", JNum 10); ("height", JNum 40)]) = Ok st' /\
    image_placed 612 792 "times" 14 (JObj []) 120 (st0 (JObj []))
      (JObj [("url", JStr "u"); ("x", JNum 10); ("height", JNum 40)]) st'
      "data:image/jpeg;base64,QUJD".
Proof.
  apply (C7_fetched_image_placement W0 612 792 "times" 14 (JObj []) (st0 (JObj []))
           (JObj [("url", JStr "u"); ("x", JNum 10); ("height", JNum 40)]) (JStr "u")).
  - vm_compute. split; [reflexivity|discriminate].
  - reflexivity.
  - reflexivity.
  - reflexivity.
  - reflexivity.
Defined.

(** ** Normalisation *)

(** On a JSON tree [cleanJSON] rebuilds what it was given. *)
Lemma cleanJSON_id : forall data : json, cleanJSON data = data.
Proof.
  fix IH 1. intros [| | | |vs|kvs]; simpl; try reflexivity.
  - f_equal. revert vs. fix IHvs 1. intros [|v vs]; simpl; [reflexivity|].
    f_equal; [apply IH|apply IHvs].
  - f_equal. revert kvs. fix IHkvs 1. intros [|[k v] kvs]; simpl; [reflexivity|].
    f_equal; [f_equal; apply IH|apply IHkvs].
Qed.

(** ** Furniture, page by page *)

(** A property [P i p] of the page [p] with 0-based index [i] that survives
    the calls in [allowed] being appended and holds of every page a break
    creates, holds of every page of the document throughout the walk. *)
Section PageProperty.
Variable j : json.
Variable allowed : op -> Prop.
Variable P : nat -> page -> Prop.
Hypothesis P_app : forall i p o, allowed o -> P i p -> P i (p ++ [o]).
Hypothesis allowed_body : forall c, allowed (Body, c).
Hypothesis allowed_header : forall c, allowed (Header, c).
Hypothesis allowed_footer : truthy_opt (footer_of j) = true -> forall c, allowed (Footer, c).
Hypothesis allowed_stamp : forall c, allowed (Stamp, c).
Hypothesis P_first : forall pw, P 0%nat (header_ops (header_of j) pw).
Hypothesis P_new : forall i pw ph, P (S i) (furniture j pw ph).
Hypothesis P_cont : forall i pw ph, P (S i) ((Body, TableCont) :: furniture j pw ph).

Definition paged (d : Doc) : Prop :=
  pages d <> [] /\ forall i p, pages d !! i = Some p -> P i p.

Lemma paged_draw d o c : allowed (o, c) -> paged d -> paged (draw o c d).
Proof.
  intros Ha [Hne Hp]. split.
  - unfold draw, with_pages. simpl. intros E.
    apply (f_equal length) in E. rewrite length_alter in E. by destruct (pages d).
  - intros i p. unfold draw, with_pages. simpl.
    rewrite list_lookup_alter. case_decide as Hi; [|by apply Hp].
    subst i. destruct (pages d !! (cur d - 1)%nat) as [p0|] eqn:E; [|done].
    intros [= <-]. by apply P_app, Hp.
Qed.

Lemma paged_snoc d d' q :
  pages d' = pages d ++ [q] ->
  (forall i, P (S i) q) ->
  paged d -> paged d'.
Proof.
  intros E Hq [Hne Hp]. split; [rewrite E; by destruct (pages d)|].
  intros i p. rewrite E. intros Hi.
  apply lookup_app_Some in Hi as [Hi|[Hlen Hi]]; [by apply Hp|].
  destruct (i - length (pages d))%nat eqn:Ei; [|done].
  injection Hi as <-.
  destruct i as [|i]; [|apply Hq].
  destruct (pages d); [done|simpl in Hlen; lia].
Qed.

Lemma paged_addHeader d header pw ft fs :
  paged d -> paged (fst (addHeader d header pw ft fs)).
Proof.
  intros Hd. unfold addHeader. simpl fst.
  apply paged_draw; [done|]. apply paged_draw; [done|].
  change (paged (draw Header (Rect 0 0 pw 70) d)).
  by apply paged_draw.
Qed.

Lemma paged_addFooter d pw ph : paged d -> paged (addFooter d (footer_of j) pw ph).
Proof.
  intros Hd. unfold addFooter.
  destruct (footer_of j) as [f|] eqn:Ef; [|done].
  destruct (truthy f) eqn:Et; [|done].
  assert (Hf : forall c, allowed (Footer, c)) by (by apply allowed_footer).
  apply paged_draw; [done|].
  change (paged (draw Footer (Rect 0 (ph - 60) pw 60) d)).
  by apply paged_draw.
Qed.

Lemma paged_inline_break d pw ph ft fs :
  paged d -> paged (fst (inline_break d pw ph ft fs j)).
Proof.
  intros Hd. eapply paged_snoc; [apply inline_break_pages| |done].
  intros i. apply P_new.
Qed.

Lemma paged_ensureSpacing d y H n ft fs :
  paged d -> paged (fst (ensureSpacing d y H n ft fs j)).
Proof.
  intros Hd. rewrite ensureSpacing_unfold. destruct (gtb _ _); [|done].
  by apply paged_inline_break.
Qed.

Lemma paged_text_lines H ft fs lines acc :
  paged (fst acc) -> paged (fst (fold_left (text_line H ft fs j) lines acc)).
Proof.
  revert acc. induction lines as [|line lines IH]; intros acc Hd; [done|].
  simpl. apply IH. unfold text_line.
  pose proof (paged_ensureSpacing (fst acc) (snd acc) H 20 ft fs Hd) as Hd'.
  destruct (ensureSpacing _ _ _ _ _ _ _) as [d' y']. simpl in *.
  by apply paged_draw.
Qed.

Lemma paged_render_text W pw H ft fs st key value :
  paged (st_doc st) -> paged (st_doc (render_text W pw H ft fs j st key value)).
Proof.
  intros Hd. unfold render_text.
  pose proof (paged_ensureSpacing (st_doc st) (st_y st) H 30 ft fs Hd) as Hd'.
  destruct (ensureSpacing _ _ _ _ _ _ _) as [d' y']. simpl in Hd'.
  match goal with
  | |- context [fold_left ?f ?ls ?a] =>
      pose proof (paged_text_lines H ft fs ls a) as Hl;
      destruct (fold_left f ls a) as [d2 y2]
  end.
  simpl. apply Hl. simpl.
  change (paged (draw Body (Text (JStr (toUpperCase W key +:+ ":")) 50 y' None) d')).
  by apply paged_draw.
Qed.

Lemma paged_image_row W pw H ft fs st row st' :
  image_row W pw H ft fs j st row = Ok st' -> paged (st_doc st) -> paged (st_doc st').
Proof.
  unfold image_row. intros E Hd.
  destruct (get_prop row "url") as [[u|]| |]; cbn [mbind outcome_bind] in E;
    try discriminate; [|by inversion E; subst].
  destruct (truthy u); [|by inversion E; subst].
  destruct (imageToBase64 W (st_reqs st) u) as [img|]; [|by inversion E; subst].
  destruct (negb (String.eqb img "")); [|by inversion E; subst].
  destruct (num_or (prop row "height") 120) as [need| |]; cbn [mbind outcome_bind] in E;
    try discriminate.
  pose proof (paged_ensureSpacing (st_doc st) (st_y st) H need ft fs Hd) as Hd1.
  destruct (ensureSpacing _ _ _ _ _ _ _) as [d1 y1]. simpl in Hd1.
  destruct (num_or (prop row "height") 100) as [h| |]; cbn [mbind outcome_bind] in E;
    try discriminate.
  destruct (gtb (y1 + h) (H - 100)).
  - pose proof (paged_inline_break d1 pw H ft fs Hd1) as Hd2.
    destruct (inline_break d1 pw H ft fs j) as [d2 y2].
    inversion E; subst; simpl. by apply paged_draw.
  - inversion E; subst; simpl. by apply paged_draw.
Qed.

Lemma paged_image_rows W pw H ft fs rows st st' :
  image_rows W pw H ft fs j st rows = Ok st' -> paged (st_doc st) -> paged (st_doc st').
Proof.
  revert st. induction rows as [|row rows IH]; intros st E Hd; cbn [image_rows] in E.
  - by inversion E; subst.
  - destruct (image_row W pw H ft fs j st row) as [st1| |] eqn:E1;
      cbn [mbind outcome_bind] in E; try discriminate.
    eapply IH; [done|]. by eapply paged_image_row.
Qed.

Lemma paged_didDrawPage pw ph ft fs d :
  paged d -> paged (didDrawPage pw ph ft fs j d).
Proof. intros Hd. unfold didDrawPage. by apply paged_addFooter, paged_addHeader. Qed.

Lemma paged_run_autoTable W pw ph ft fs d startY head body :
  paged d -> paged (fst (run_autoTable W pw ph ft fs j d startY head body)).
Proof.
  intros Hd. unfold run_autoTable.
  destruct (autoTable W startY head body) as [added finalY]. simpl fst.
  induction added as [|k IH]; cbn [Nat.iter].
  - by apply paged_didDrawPage, paged_draw.
  - eapply paged_snoc; [| |exact IH].
    + pose proof (at_last_didDrawPage pw ph ft fs j _ _ _
                    (at_last_draw _ _ _ Body TableCont (at_last_addPage
                       (Nat.iter k (fun d => didDrawPage pw ph ft fs j
                                               (draw Body TableCont (addPage d)))
                          (didDrawPage pw ph ft fs j
                             (draw Body (Table startY head body) d)))))) as [Hp _].
      exact Hp.
    + intros i. apply P_cont.
Qed.

Lemma paged_render_table W pw ph ft fs st headers value st' :
  render_table W pw ph ft fs j st headers value = Ok st' ->
  paged (st_doc st) -> paged (st_doc st').
Proof.
  unfold render_table. intros E Hd.
  assert (Hstart : paged (fst (if negb (willFitOnPage (st_y st) (estimatedTableHeight value) ph)
                                then inline_break (st_doc st) pw ph ft fs j
                                else (st_doc st, st_y st)))).
  { destruct (negb _); [by apply paged_inline_break|done]. }
  destruct (if negb _ then _ else _) as [d y]. cbn [fst] in Hstart.
  destruct (table_body headers value) as [body| |]; cbn [mbind outcome_bind] in E;
    try discriminate.
  pose proof (paged_run_autoTable W pw ph ft fs d y headers body Hstart) as Ha.
  destruct (run_autoTable _ _ _ _ _ _ _ _ _ _) as [d2 finalY].
  by inversion E; subst.
Qed.

Lemma paged_render_field W pw ph ft fs st key value st' :
  render_field W pw ph ft fs j st key value = Ok st' ->
  paged (st_doc st) -> paged (st_doc st').
Proof.
  unfold render_field. intros E Hd.
  destruct (reserved key); [by inversion E; subst|].
  destruct value as [| | |s|[|v0 rest]|]; try (by inversion E; subst).
  - inversion E; subst. by apply paged_render_text.
  - destruct (typeof_object v0); [|by inversion E; subst].
    destruct (object_keys v0) as [headers| |]; cbn [mbind outcome_bind] in E;
      try discriminate.
    destruct (includes "url" headers).
    + by eapply paged_image_rows.
    + by eapply paged_render_table.
Qed.

Lemma paged_render_fields W pw ph ft fs fields st st' :
  render_fields W pw ph ft fs j st fields = Ok st' ->
  paged (st_doc st) -> paged (st_doc st').
Proof.
  revert st. induction fields as [|[key value] fields IH]; intros st E Hd;
    cbn [render_fields] in E.
  - by inversion E; subst.
  - destruct (render_field W pw ph ft fs j st key value) as [st1| |] eqn:E1;
      cbn [mbind outcome_bind] in E; try discriminate.
    eapply IH; [done|]. by eapply paged_render_field.
Qed.

Lemma paged_number_pages pw ph d : paged d -> paged (number_pages pw ph d).
Proof.
  intros Hd. unfold number_pages.
  generalize (getNumberOfPages d) at 1 as total.
  generalize (seq 1 (getNumberOfPages d)) as idxs.
  intros idxs. revert d Hd.
  induction idxs as [|i idxs IH]; intros d Hd total; [done|].
  simpl. apply IH. unfold stamp.
  apply paged_draw; [done|]. exact Hd.
Qed.

Lemma paged_layout W options st :
  layout W j options = Ok st -> paged (st_doc st).
Proof.
  unfold layout. rewrite cleanJSON_id. intros E.
  destruct (get_prop j "header") as [header| |] eqn:Eh;
    cbn [mbind outcome_bind] in E; try discriminate.
  assert (header = header_of j) as -> by (destruct j; by inversion Eh).
  set (d0 := new_jsPDF W (format options) (orientation options)) in *.
  pose proof (at_last_addHeader d0 [] [] (header_of j) (psWidth d0)
                (fontType options) (optFontSize options)) as Hat.
  destruct (addHeader d0 (header_of j) (psWidth d0) (fontType options) (optFontSize options))
    as [d y].
  destruct (render_fields _ _ _ _ _ _ _ _) as [st1| |] eqn:Ef;
    cbn [mbind outcome_bind] in E; try discriminate.
  inversion E; subst; cbn [st_doc].
  apply paged_addFooter.
  eapply paged_render_fields; [exact Ef|]. cbn [st_doc].
  destruct Hat as [Hp _].
  { split; unfold d0; [apply new_jsPDF_pages|apply new_jsPDF_cur]. }
  cbn [fst app] in Hp. split; cbn [pages setFontSize setFont]; rewrite Hp; [done|].
  intros [|i] p; [|done]. intros [= <-]. apply P_first.
Qed.

Lemma paged_generatePDF W input options art :
  load W input = Ok j ->
  generatePDF W input options = Ok art ->
  paged (saved art).
Proof.
  intros El E. unfold generatePDF in E. rewrite El in E. cbn [mbind outcome_bind] in E.
  destruct (layout W j options) as [st| |] eqn:Ey;
    cbn [mbind outcome_bind] in E; try discriminate.
  inversion E; subst; cbn [saved].
  pose proof (paged_layout W options st Ey) as Hd.
  destruct (pageNumbering options); [|done].
  by apply paged_number_pages.
Qed.

End PageProperty.

(** Every page of the saved document carries header furniture; no page
    carries footer furniture when the document has no truthy [footer]; and
    when it has one, every page after the first carries footer furniture. *)
Theorem furniture_of_saved_pages
    (W : World) (input jsonData : json) (options : PDFOptions) (art : Artifact) :
  load W input = Ok jsonData ->
  generatePDF W input options = Ok art ->
  Forall (fun p => existsb is_header p = true) (pages (saved art)) /\
  (truthy_opt (footer_of jsonData) = false ->
     Forall (fun p => existsb is_footer p = false) (pages (saved art))) /\
  (truthy_opt (footer_of jsonData) = true ->
     forall i p, pages (saved art) !! S i = Some p -> existsb is_footer p = true).
Proof.
  intros El E. split; [|split].
  - assert (Hp : paged (fun _ q => existsb is_header q = true) (saved art)).
    { eapply (paged_generatePDF jsonData (fun _ => True)); [..|exact El|exact E];
        try done.
      intros k q o _ Hq. by rewrite existsb_app, Hq. }
    apply Forall_lookup. intros i p Hi. by apply (proj2 Hp i p Hi).
  - intros Hf.
    assert (Hp : paged (fun _ q => existsb is_footer q = false) (saved art)).
    { eapply (paged_generatePDF jsonData (fun o => is_footer o = false));
        [..|exact El|exact E]; try done.
      - intros k q o Ho Hq. rewrite existsb_app, Hq. simpl. by rewrite Ho.
      - by rewrite Hf.
      - intros k pw ph. unfold furniture, footer_ops. by rewrite Hf.
      - intros k pw ph. unfold furniture, footer_ops. by rewrite Hf. }
    apply Forall_lookup. intros i p Hi. by apply (proj2 Hp i p Hi).
  - intros Hf i p Hi.
    assert (Hp : paged (fun k q => k <> 0%nat -> existsb is_footer q = true) (saved art)).
    { eapply (paged_generatePDF jsonData (fun _ => True)); [..|exact El|exact E];
        try done.
      - intros k q o _ Hq Hk. by rewrite existsb_app, Hq.
      - intros k pw ph _. unfold furniture, footer_ops. rewrite Hf.
        by rewrite existsb_app, orb_true_r.
      - intros k pw ph _. unfold furniture, footer_ops. rewrite Hf.
        cbn [existsb]. by rewrite existsb_app, !orb_true_r. }
    by apply (proj2 Hp (S i) p Hi).
Qed.

Lemma furniture_of_saved_pages_witness :
  exists art,
    generatePDF W0 table_doc letter_options = Ok art /\
    Forall (fun p => existsb is_header p = true) (pages (saved art)) /\
    forall i p, pages (saved art) !! S i = Some p -> existsb is_footer p = true.
Proof.
  eexists. split; [vm_compute; reflexivity|].
  destruct (furniture_of_saved_pages W0 table_doc table_doc letter_options _
              eq_refl eq_refl) as (Hh & _ & Hf).
  split; [exact Hh|]. by apply Hf.
Defined.

(** ** Calls that leave the content of a page alone *)

Lemma map_alter_same {A B : Type} (g : A -> B) (f : A -> A) (i : nat) (l : list A) :
  (forall x, g (f x) = g x) -> map g (alter f i l) = map g l.
Proof.
  intros Hgf. unfold alter. revert i.
  induction l as [|x l IH]; intros [|i]; simpl; try done.
  - by rewrite Hgf.
  - by rewrite IH.
Qed.

(** ** Generation runs to the end *)

Lemma row_cells_total (headers : list string) (row : json) :
  is_null row = false ->
  exists cells, mapM (fun header => get_prop row header) headers = Ok cells.
Proof.
  intros Hn. induction headers as [|h headers [cells IH]]; [by eexists|].
  cbn [mapM]. rewrite IH.
  replace (get_prop row h) with (Ok (prop row h)) by (by destruct row).
  by eexists.
Qed.

Lemma table_body_total (headers : list string) (value : list json) :
  forallb (fun row => negb (is_null row)) value = true ->
  exists body, table_body headers value = Ok body.
Proof.
  unfold table_body. induction value as [|row value IH]; [by eexists|].
  cbn [forallb]. intros [Hrow Hrest]%andb_true_iff.
  destruct (IH Hrest) as [body Hb].
  destruct (row_cells_total headers row) as [cells Hc]; [by destruct (is_null row)|].
  cbn [mapM]. rewrite Hc, Hb. by eexists.
Qed.

Lemma image_row_total W pw ph ft fs j st row :
  renderable row = true -> exists st', image_row W pw ph ft fs j st row = Ok st'.
Proof.
  intros Hr. unfold image_row.
  rewrite (renderable_get_prop _ _ Hr). cbn [mbind outcome_bind].
  destruct (prop row "url") as [u|]; [|by eexists].
  destruct (truthy u); [|by eexists].
  destruct (imageToBase64 W (st_reqs st) u) as [img|]; [|by eexists].
  destruct (negb (String.eqb img "")); [|by eexists].
  destruct (renderable_num_or row 120 Hr) as [need ->].
  destruct (renderable_num_or row 100 Hr) as [h ->].
  cbn [mbind outcome_bind].
  destruct (ensureSpacing _ _ _ _ _ _ _) as [d1 y1].
  destruct (if gtb _ _ then _ else _) as [d2 y2]. by eexists.
Qed.

Lemma image_rows_total W pw ph ft fs j rows st :
  forallb renderable rows = true -> exists st', image_rows W pw ph ft fs j st rows = Ok st'.
Proof.
  revert st. induction rows as [|row rows IH]; intros st; [by eexists|].
  cbn [forallb image_rows]. intros [Hrow Hrest]%andb_true_iff.
  destruct (image_row_total W pw ph ft fs j st row Hrow) as [st1 ->].
  cbn [mbind outcome_bind]. by apply IH.
Qed.

Lemma render_table_total W pw ph ft fs j st headers value :
  forallb (fun row => negb (is_null row)) value = true ->
  exists st', render_table W pw ph ft fs j st headers value = Ok st'.
Proof.
  intros Hv. unfold render_table.
  destruct (if negb _ then _ else _) as [d y].
  destruct (table_body_total headers value Hv) as [body ->].
  cbn [mbind outcome_bind].
  destruct (run_autoTable _ _ _ _ _ _ _ _ _ _) as [d2 finalY]. by eexists.
Qed.

Lemma render_field_total W pw ph ft fs j st key value :
  supported value = true -> exists st', render_field W pw ph ft fs j st key value = Ok st'.
Proof.
  intros Hs. destruct (reserved key) eqn:Hr.
  { unfold render_field. rewrite Hr. by eexists. }
  rewrite render_field_dispatch by done. unfold supported in Hs.
  destruct (classify value) as [k| |] eqn:Ec; try discriminate.
  cbn [mbind outcome_bind].
  destruct k, value as [| | |s|rows|]; try (by eexists).
  - by apply image_rows_total.
  - destruct rows as [|v0 rest]; [by eexists|].
    apply classify_table_inv in Ec as (v0' & rest' & headers & [= <- <-] & -> & _).
    cbn [mbind outcome_bind]. by apply render_table_total.
Qed.

Lemma render_fields_total W pw ph ft fs j fields st :
  Forall (fun kv => supported (snd kv) = true) fields ->
  exists st', render_fields W pw ph ft fs j st fields = Ok st'.
Proof.
  revert st. induction fields as [|[key value] fields IH]; intros st Hs; [by eexists|].
  apply Forall_cons in Hs as [Hv Hrest]. cbn [render_fields].
  destruct (render_field_total W pw ph ft fs j st key value Hv) as [st1 ->].
  cbn [mbind outcome_bind]. by apply IH.
Qed.



(** ** The current page stays the last one *)

Lemma cur_last_addHeader d header pw ft fs :
  cur_last d -> cur_last (fst (addHeader d header pw ft fs)).
Proof.
  rewrite !cur_last_at_last. intros (l & p & Hat).
  do 2 eexists. by apply at_last_addHeader.
Qed.

Lemma cur_last_addFooter d footer pw ph : cur_last d -> cur_last (addFooter d footer pw ph).
Proof.
  rewrite !cur_last_at_last. intros (l & p & Hat).
  do 2 eexists. by apply at_last_addFooter.
Qed.

Lemma doc_items_at_last d l p :
  at_last d l p -> doc_items d = concat (map (omap item_of) l) ++ omap item_of p.
Proof.
  intros [Hp _]. unfold doc_items.
  rewrite Hp, map_app, concat_app. cbn [map concat]. by rewrite app_nil_r.
Qed.

Lemma doc_items_draw d o c :
  cur_last d -> doc_items (draw o c d) = doc_items d ++ omap item_of [(o, c)].
Proof.
  rewrite cur_last_at_last. intros (l & p & Hat).
  rewrite (doc_items_at_last _ _ _ (at_last_draw _ _ _ o c Hat)).
  by rewrite (doc_items_at_last _ _ _ Hat), omap_app, app_assoc.
Qed.

Lemma furniture_no_items j pw ph : omap item_of (furniture j pw ph) = [].
Proof.
  unfold furniture, header_ops, footer_ops.
  by destruct (truthy_opt (footer_of j)).
Qed.

Lemma inline_break_items d pw ph ft fs j :
  doc_items (fst (inline_break d pw ph ft fs j)) = doc_items d.
Proof.
  unfold doc_items. rewrite inline_break_pages, map_app, concat_app.
  cbn [map concat]. by rewrite furniture_no_items, !app_nil_r.
Qed.

Lemma ensureSpacing_items d y H n ft fs j :
  doc_items (fst (ensureSpacing d y H n ft fs j)) = doc_items d.
Proof.
  rewrite ensureSpacing_unfold. destruct (gtb _ _); [|done].
  apply inline_break_items.
Qed.

Lemma doc_items_draw_other d o c :
  item_of (o, c) = None -> doc_items (draw o c d) = doc_items d.
Proof.
  intros Hn. unfold doc_items, draw, with_pages. cbn [pages].
  rewrite map_alter_same; [done|].
  intros p. rewrite omap_app.
  replace (omap item_of [(o, c)]) with (@nil item); [apply app_nil_r|].
  cbn [omap list_omap]. by rewrite Hn.
Qed.

Lemma doc_items_addFooter d footer pw ph :
  doc_items (addFooter d footer pw ph) = doc_items d.
Proof.
  unfold addFooter. destruct footer as [f|]; [|done]. destruct (truthy f); [|done].
  rewrite doc_items_draw_other by done.
  change (doc_items (draw Footer (Rect 0 (ph - 60) pw 60) d) = doc_items d).
  by rewrite doc_items_draw_other.
Qed.

Lemma doc_items_addHeader d header pw ft fs :
  doc_items (fst (addHeader d header pw ft fs)) = doc_items d.
Proof.
  unfold addHeader. cbn [fst].
  rewrite !doc_items_draw_other by done.
  change (doc_items (draw Header (Rect 0 0 pw 70) d) = doc_items d).
  by rewrite doc_items_draw_other.
Qed.

Lemma doc_items_number_pages pw ph d : doc_items (number_pages pw ph d) = doc_items d.
Proof.
  unfold number_pages.
  generalize (getNumberOfPages d) at 1 as total.
  generalize (seq 1 (getNumberOfPages d)) as idxs.
  intros idxs. revert d.
  induction idxs as [|i idxs IH]; intros d total; [done|].
  cbn [fold_left]. rewrite IH. unfold stamp.
  by rewrite doc_items_draw_other.
Qed.

(** ** What each renderer adds to the content *)

Lemma text_lines_items H ft fs j lines d y :
  cur_last d ->
  cur_last (fst (fold_left (text_line H ft fs j) lines (d, y))) /\
  doc_items (fst (fold_left (text_line H ft fs j) lines (d, y)))
  = doc_items d ++ map (fun line => IText (JStr line)) lines.
Proof.
  revert d y. induction lines as [|line lines IH]; intros d y Hc.
  - cbn [fold_left fst map]. by rewrite app_nil_r.
  - cbn [fold_left map].
    pose proof (cur_last_ensureSpacing d y H 20 ft fs j Hc) as Hc1.
    pose proof (ensureSpacing_items d y H 20 ft fs j) as Hi1.
    assert (Et : text_line H ft fs j (d, y) line
                 = (draw Body (Text (JStr line) 50
                                 (snd (ensureSpacing d y H 20 ft fs j)) None)
                         (fst (ensureSpacing d y H 20 ft fs j)),
                    snd (ensureSpacing d y H 20 ft fs j) + 20)).
    { unfold text_line. cbn [fst snd]. by destruct (ensureSpacing d y H 20 ft fs j). }
    rewrite Et.
    destruct (ensureSpacing d y H 20 ft fs j) as [d1 y1]. cbn [fst snd] in *.
    destruct (IH (draw Body (Text (JStr line) 50 y1 None) d1) (y1 + 20)
                (cur_last_draw _ _ _ Hc1)) as [Hc2 Hi2].
    split; [exact Hc2|].
    rewrite Hi2, doc_items_draw, Hi1 by done. by rewrite <- app_assoc.
Qed.

Lemma render_text_items W pw H ft fs j st key value :
  cur_last (st_doc st) ->
  cur_last (st_doc (render_text W pw H ft fs j st key value)) /\
  doc_items (st_doc (render_text W pw H ft fs j st key value))
  = doc_items (st_doc st)
      ++ IText (JStr (toUpperCase W key +:+ ":"))
      :: map (fun line => IText (JStr line)) (splitTextToSize W ft "normal" fs value (pw - 100)) /\
  st_reqs (render_text W pw H ft fs j st key value) = st_reqs st /\
  st_console (render_text W pw H ft fs j st key value) = st_console st.
Proof.
  intros Hc. unfold render_text.
  pose proof (cur_last_ensureSpacing (st_doc st) (st_y st) H 30 ft fs j Hc) as Hc1.
  pose proof (ensureSpacing_items (st_doc st) (st_y st) H 30 ft fs j) as Hi1.
  destruct (ensureSpacing (st_doc st) (st_y st) H 30 ft fs j) as [d1 y1].
  cbn [fst] in Hc1, Hi1.
  set (d2 := setFont ft (Some "normal")
               (draw Body (Text (JStr (toUpperCase W key +:+ ":")) 50 y1 None)
                  (setFont ft (Some "bold") (setFontSize fs d1)))).
  change (splitTextToSize W (curFontName d2) (curFontStyle d2) (curFontSize d2) value (pw - 100))
    with (splitTextToSize W ft "normal" fs value (pw - 100)).
  assert (Hc2 : cur_last d2) by (by apply (cur_last_draw d1)).
  assert (Hi2 : doc_items d2
                = doc_items (st_doc st) ++ [IText (JStr (toUpperCase W key +:+ ":"))]).
  { rewrite <- Hi1. by apply (doc_items_draw d1). }
  destruct (text_lines_items H ft fs j (splitTextToSize W ft "normal" fs value (pw - 100))
              d2 (y1 + 20) Hc2) as [Hc3 Hi3].
  destruct (fold_left _ _ _) as [d3 y3]. cbn [fst] in Hc3, Hi3.
  cbn [st_doc st_reqs st_console]. split; [done|]. split; [|done].
  by rewrite Hi3, Hi2, <- app_assoc.
Qed.

(** The three ways an iteration of the image loop can end. *)
Lemma image_row_cases W pw H ft fs j st row st' :
  image_row W pw H ft fs j st row = Ok st' ->
  cur_last (st_doc st) ->
  cur_last (st_doc st') /\
  match prop row "url" with
  | Some u =>
      if truthy u then
        st_reqs st' = S (st_reqs st) /\
        match imageToBase64 W (st_reqs st) u with
        | Some img =>
            doc_items (st_doc st') = doc_items (st_doc st) ++ [IImage img] /\
            st_console st' = st_console st
        | None =>
            st_doc st' = st_doc st /\ st_y st' = st_y st /\
            st_console st' = st_console st ++ [FailedToLoadImage u]
        end
      else st' = st
  | None => st' = st
  end.
Proof.
  unfold image_row. intros E Hc.
  destruct row as [| | | | |]; try discriminate;
    cbn [get_prop mbind outcome_bind] in E.
  all: match goal with
       | |- context [prop ?r "url"] => destruct (prop r "url") as [u|]
       end; [|by inversion E; subst].
  all: destruct (truthy u); [|by inversion E; subst].
  all: destruct (imageToBase64 W (st_reqs st) u) as [img|] eqn:Hi;
         [|by inversion E; subst].
  all: rewrite (imageToBase64_nonempty _ _ _ _ Hi) in E.
  all: match type of E with
       | context [num_or ?o 120] =>
           destruct (num_or o 120) as [need| |]; cbn [mbind outcome_bind] in E;
             try discriminate;
           destruct (num_or o 100) as [h| |] eqn:Eh
       end.
  all: pose proof (cur_last_ensureSpacing (st_doc st) (st_y st) H need ft fs j Hc) as Hc1;
       pose proof (ensureSpacing_items (st_doc st) (st_y st) H need ft fs j) as Hi1;
       destruct (ensureSpacing (st_doc st) (st_y st) H need ft fs j) as [d1 y1];
       cbn [fst mbind outcome_bind] in *; try discriminate.
  all: destruct (gtb (y1 + h) (H - 100));
         [ pose proof (cur_last_inline_break d1 pw H ft fs j) as Hc2;
           pose proof (inline_break_items d1 pw H ft fs j) as Hi2;
           destruct (inline_break d1 pw H ft fs j) as [d2 y2]; cbn [fst] in Hc2, Hi2
         | ].
  all: inversion E; subst; cbn [st_doc st_reqs st_console].
  all: split; [by apply cur_last_draw|]; split; [done|]; split; [|done].
  all: rewrite doc_items_draw by done; cbn [omap list_omap item_of]; congruence.
Qed.

Lemma image_rows_items W pw H ft fs j rows st st' :
  image_rows W pw H ft fs j st rows = Ok st' ->
  cur_last (st_doc st) ->
  cur_last (st_doc st') /\
  doc_items (st_doc st')
  = doc_items (st_doc st) ++ map IImage (fetched_images W (st_reqs st) rows) /\
  st_reqs st' = (st_reqs st + requests rows)%nat /\
  st_console st' = st_console st ++ failures W (st_reqs st) rows.
Proof.
  revert st. induction rows as [|row rows IH]; intros st E Hc; cbn [image_rows] in E.
  - inversion E; subst. cbn [fetched_images requests failures map].
    rewrite !app_nil_r. split; [done|]. split; [done|]. split; [lia|done].
  - destruct (image_row W pw H ft fs j st row) as [st1| |] eqn:E1;
      cbn [mbind outcome_bind] in E; try discriminate.
    destruct (image_row_cases W pw H ft fs j st row st1 E1 Hc) as [Hc1 Hrow].
    destruct (IH st1 E Hc1) as (Hc' & Hi' & Hq' & Hl').
    split; [exact Hc'|]. cbn [fetched_images requests failures truthy_opt].
    destruct (prop row "url") as [u|]; cbn [truthy_opt].
    + destruct (truthy u).
      * destruct Hrow as [Hq Hrow]. rewrite Hq in *.
        destruct (imageToBase64 W (st_reqs st) u) as [img|].
        -- destruct Hrow as [Hi Hl]. rewrite Hi', Hl', Hi, Hl. cbn [map].
           rewrite <- app_assoc. split; [done|]. split; [lia|done].
        -- destruct Hrow as (Hd & _ & Hl). rewrite Hi', Hl', Hd, Hl.
           rewrite <- app_assoc. split; [done|]. split; [lia|done].
      * subst st1. split; [done|]. split; [lia|done].
    + subst st1. split; [done|]. split; [lia|done].
Qed.

Lemma concat_repeat_nil {A B : Type} (f : A -> list B) (c : A) (k : nat) :
  f c = [] -> concat (map f (repeat c k)) = [].
Proof.
  intros Hf. induction k as [|k IH]; [done|].
  cbn [repeat map concat]. by rewrite Hf, IH.
Qed.

Lemma run_autoTable_items W pw ph ft fs j d startY head body :
  cur_last d ->
  cur_last (fst (run_autoTable W pw ph ft fs j d startY head body)) /\
  doc_items (fst (run_autoTable W pw ph ft fs j d startY head body))
  = doc_items d ++ [ITable head body].
Proof.
  rewrite cur_last_at_last. intros (l & p & Hat).
  destruct (run_autoTable_at_last W pw ph ft fs j d l p startY head body Hat)
    as (l' & p' & Hat' & Heq).
  split; [apply cur_last_at_last; eauto|].
  unfold doc_items at 1. destruct Hat' as [-> _]. rewrite Heq.
  rewrite !map_app, !concat_app. cbn [map concat].
  rewrite omap_app. cbn [omap list_omap item_of].
  rewrite furniture_no_items, concat_repeat_nil, (doc_items_at_last _ _ _ Hat).
  - by rewrite !app_nil_r, <- app_assoc.
  - cbn [omap list_omap item_of]. apply furniture_no_items.
Qed.

Lemma render_table_items W pw ph ft fs j st headers value st' :
  render_table W pw ph ft fs j st headers value = Ok st' ->
  cur_last (st_doc st) ->
  exists body,
    table_body headers value = Ok body /\
    cur_last (st_doc st') /\
    doc_items (st_doc st') = doc_items (st_doc st) ++ [ITable headers body] /\
    st_reqs st' = st_reqs st /\ st_console st' = st_console st.
Proof.
  unfold render_table. intros E Hc.
  assert (Hstart :
    cur_last (fst (if negb (willFitOnPage (st_y st) (estimatedTableHeight value) ph)
                   then inline_break (st_doc st) pw ph ft fs j
                   else (st_doc st, st_y st))) /\
    doc_items (fst (if negb (willFitOnPage (st_y st) (estimatedTableHeight value) ph)
                    then inline_break (st_doc st) pw ph ft fs j
                    else (st_doc st, st_y st))) = doc_items (st_doc st)).
  { destruct (negb _); [|done].
    split; [apply cur_last_inline_break|apply inline_break_items]. }
  destruct (if negb _ then _ else _) as [d y]. cbn [fst] in Hstart.
  destruct Hstart as [Hc1 Hi1].
  destruct (table_body headers value) as [body| |]; cbn [mbind outcome_bind] in E;
    try discriminate.
  destruct (run_autoTable_items W pw ph ft fs j d y headers body Hc1) as [Hc2 Hi2].
  destruct (run_autoTable _ _ _ _ _ _ _ _ _ _) as [d2 finalY]. cbn [fst] in Hc2, Hi2.
  inversion E; subst; cbn [st_doc st_reqs st_console].
  exists body. by rewrite Hi2, Hi1.
Qed.

Lemma render_fields_items W pw ph ft fs j fields st st' :
  render_fields W pw ph ft fs j st fields = Ok st' ->
  cur_last (st_doc st) ->
  cur_last (st_doc st') /\
  doc_items (st_doc st')
  = doc_items (st_doc st) ++ content W ft fs pw (st_reqs st) fields /\
  st_console st' = st_console st ++ diagnostics W (st_reqs st) fields.
Proof.
  revert st. induction fields as [|[key value] fields IH]; intros st E Hc;
    cbn [render_fields] in E.
  - inversion E; subst. cbn [content diagnostics]. by rewrite !app_nil_r.
  - destruct (render_field W pw ph ft fs j st key value) as [st1| |] eqn:E1;
      cbn [mbind outcome_bind] in E; try discriminate.
    cbn [content diagnostics]. destruct (reserved key) eqn:Hr.
    { unfold render_field in E1. rewrite Hr in E1. inversion E1; subst st1.
      by apply IH. }
    rewrite render_field_dispatch in E1 by done.
    destruct (classify value) as [k| |] eqn:Ec; cbn [mbind outcome_bind] in E1;
      try discriminate.
    destruct value as [| | |s|rows|kvs].
    1-3,6: destruct k; inversion E1; subst st1; by apply IH.
    + (* a string *)
      assert (k = KText) as -> by (by inversion Ec).
      inversion E1; subst st1; clear E1.
      destruct (render_text_items W pw ph ft fs j st key s Hc) as (Hc1 & Hi1 & Hq1 & Hl1).
      destruct (IH _ E Hc1) as (Hc' & Hi' & Hl').
      split; [exact Hc'|]. rewrite Hi', Hl', Hi1, Hq1, Hl1.
      by rewrite <- app_assoc.
    + (* an array *)
      destruct rows as [|v0 rest].
      { assert (k = KSkip) as -> by (by inversion Ec).
        inversion E1; subst st1. by apply IH. }
      rewrite Ec. destruct k.
      * exfalso. unfold classify in Ec. destruct (typeof_object v0); [|done].
        destruct (object_keys v0) as [headers| |]; cbn [mbind outcome_bind] in Ec;
          try done.
        by destruct (includes "url" headers).
      * destruct (image_rows_items W pw ph ft fs j (v0 :: rest) st st1 E1 Hc)
          as (Hc1 & Hi1 & Hq1 & Hl1).
        destruct (IH _ E Hc1) as (Hc' & Hi' & Hl').
        split; [exact Hc'|]. rewrite Hi', Hl', Hi1, Hq1, Hl1. by rewrite <- !app_assoc.
      * destruct (object_keys v0) as [headers| |]; cbn [mbind outcome_bind] in E1;
          try discriminate.
        destruct (render_table_items W pw ph ft fs j st headers (v0 :: rest) st1 E1 Hc)
          as (body & -> & Hc1 & Hi1 & Hq1 & Hl1).
        destruct (IH _ E Hc1) as (Hc' & Hi' & Hl').
        split; [exact Hc'|]. rewrite Hi', Hl', Hi1, Hq1, Hl1. by rewrite <- app_assoc.
      * inversion E1; subst st1. by apply IH.
Qed.

(** The document the walk leaves, just before the forced footer. *)
Lemma layout_walk W j options st :
  layout W j options = Ok st ->
  exists d,
    cur_last d /\
    doc_items d
    = content W (fontType options) (optFontSize options) (pageWidth_of W options) 0
        (for_in j) /\
    st_doc st = addFooter d (footer_of j) (pageWidth_of W options) (pageHeight_of W options) /\
    st_console st = diagnostics W 0 (for_in j).
Proof.
  unfold layout, pageWidth_of, pageHeight_of. rewrite cleanJSON_id. intros E.
  destruct (get_prop j "header") as [header| |] eqn:Eh;
    cbn [mbind outcome_bind] in E; try discriminate.
  set (d0 := new_jsPDF W (format options) (orientation options)) in *.
  assert (Hat0 : at_last d0 [] [])
    by (split; unfold d0; [apply new_jsPDF_pages|apply new_jsPDF_cur]).
  pose proof (at_last_addHeader d0 [] [] header (psWidth d0)
                (fontType options) (optFontSize options) Hat0) as Hat.
  destruct (addHeader d0 header (psWidth d0) (fontType options) (optFontSize options))
    as [d y].
  cbn [fst app] in Hat.
  destruct (render_fields _ _ _ _ _ _ _ _) as [st1| |] eqn:Ef;
    cbn [mbind outcome_bind] in E; try discriminate.
  inversion E; subst; cbn [st_doc].
  set (d1 := setFontSize (optFontSize options) (setFont (fontType options) None d)) in *.
  assert (Hat1 : at_last d1 [] (header_ops header (psWidth d0))) by exact Hat.
  assert (Hc1 : cur_last d1) by (apply cur_last_at_last; eauto).
  destruct (render_fields_items _ _ _ _ _ _ _ _ _ Ef Hc1) as (Hc & Hi & Hl).
  exists (st_doc st1). split; [exact Hc|]. split; [|by split].
  rewrite Hi. cbn [st_doc st_reqs].
  by rewrite (doc_items_at_last _ _ _ Hat1).
Qed.

(** The saved document carries exactly the content of the fields, in field
    order: the label and wrapped lines of each string, the fetched images
    of each image table, the head and body of each table; nothing is lost,
    repeated or reordered by the page breaks, the furniture or the stamps. *)
Theorem content_of_saved_document
    (W : World) (input jsonData : json) (options : PDFOptions) (art : Artifact) :
  load W input = Ok jsonData ->
  generatePDF W input options = Ok art ->
  doc_items (saved art)
  = content W (fontType options) (optFontSize options) (pageWidth_of W options) 0
      (for_in jsonData).
Proof.
  intros El E. unfold generatePDF in E. rewrite El in E. cbn [mbind outcome_bind] in E.
  destruct (layout W jsonData options) as [st| |] eqn:Ey;
    cbn [mbind outcome_bind] in E; try discriminate.
  inversion E; subst; cbn [saved].
  destruct (layout_walk W jsonData options st Ey) as (d & _ & Hi & -> & _).
  destruct (pageNumbering options).
  - by rewrite doc_items_number_pages, doc_items_addFooter.
  - by rewrite doc_items_addFooter.
Qed.

(** A summary, two pictures of which the first cannot be fetched, and a
    table. *)
Definition mixed_doc : json :=
  JObj [("header", JObj [("text", JStr "T")]);
        ("summary", JStr "short text");
        ("pics", JArr [JObj [("url", JStr "bad")]; JObj [("url", JStr "ok")]]);
        ("sales", JArr [JObj [("q", JNum 1); ("v", JNum 10)]; JObj [("q", JNum 2)]])].

Lemma content_of_saved_document_witness :
  exists art,
    generatePDF W0 mixed_doc letter_options = Ok art /\
    doc_items (saved art)
    = [IText (JStr "SUMMARY:"); IText (JStr "short text");
       IImage "data:image/jpeg;base64,QUJD";
       ITable ["q"; "v"] [[Some (JNum 1); Some (JNum 10)]; [Some (JNum 2); None]]].
Proof.
  eexists. split; [vm_compute; reflexivity|].
  etransitivity.
  - apply (content_of_saved_document W0 mixed_doc mixed_doc letter_options).
    + reflexivity.
    + vm_compute. reflexivity.
  - vm_compute. reflexivity.
Defined.

(** When the document has a truthy [footer], the last page of the saved
    document carries footer furniture (so a one-page document has its
    footer). *)
Theorem last_page_has_footer
    (W : World) (input jsonData : json) (options : PDFOptions) (art : Artifact) :
  load W input = Ok jsonData ->
  generatePDF W input options = Ok art ->
  truthy_opt (footer_of jsonData) = true ->
  exists p, last (pages (saved art)) = Some p /\ existsb is_footer p = true.
Proof.
  intros El E Hf. unfold generatePDF in E. rewrite El in E. cbn [mbind outcome_bind] in E.
  destruct (layout W jsonData options) as [st| |] eqn:Ey;
    cbn [mbind outcome_bind] in E; try discriminate.
  inversion E; subst; cbn [saved]. clear E.
  destruct (layout_walk W jsonData options st Ey) as (d & Hc & _ & -> & _).
  apply cur_last_at_last in Hc as (l & p & Hat).
  apply (at_last_addFooter _ _ _ (footer_of jsonData)
           (pageWidth_of W options) (pageHeight_of W options)) in Hat.
  destruct Hat as [Hp _].
  assert (Hfoot : existsb is_footer
                    (p ++ footer_ops (footer_of jsonData)
                            (pageWidth_of W options) (pageHeight_of W options)) = true).
  { unfold footer_ops. rewrite Hf. by rewrite existsb_app, orb_true_r. }
  destruct (pageNumbering options).
  - eexists. split.
    + rewrite last_lookup, number_pages_length, Hp, length_app. cbn [length].
      replace (pred (length l + 1)) with (length l + 0)%nat by lia.
      apply number_pages_lookup. rewrite Hp.
      apply (list_lookup_middle l [] _ (length l + 0)). lia.
    + by rewrite existsb_app, Hfoot.
  - eexists. split; [rewrite Hp; apply last_snoc|exact Hfoot].
Qed.

Lemma last_page_has_footer_witness :
  exists art,
    generatePDF W0 table_doc letter_options = Ok art /\
    exists p, last (pages (saved art)) = Some p /\ existsb is_footer p = true.
Proof.
  eexists. split; [vm_compute; reflexivity|].
  apply (last_page_has_footer W0 table_doc table_doc letter_options).
  - reflexivity.
  - vm_compute. reflexivity.
  - reflexivity.
Defined.

(** The console of a call that returns: one failure line for each image
    request that failed, in field and row order, then the line announcing
    the file, which names the returned path. *)
Theorem console_of_generatePDF
    (W : World) (input jsonData : json) (options : PDFOptions) (art : Artifact) :
  load W input = Ok jsonData ->
  generatePDF W input options = Ok art ->
  logged art = diagnostics W 0 (for_in jsonData) ++ [PDFCreated (outputPath art)].
Proof.
  intros El E. unfold generatePDF in E. rewrite El in E. cbn [mbind outcome_bind] in E.
  destruct (layout W jsonData options) as [st| |] eqn:Ey;
    cbn [mbind outcome_bind] in E; try discriminate.
  inversion E; subst; cbn [logged outputPath].
  destruct (layout_walk W jsonData options st Ey) as (d & _ & _ & _ & ->).
  reflexivity.
Qed.

Lemma console_of_generatePDF_witness :
  exists art,
    generatePDF W0 mixed_doc letter_options = Ok art /\
    logged art = [FailedToLoadImage (JStr "bad"); PDFCreated "/work/report-1700000000000.pdf"].
Proof.
  eexists. split; [vm_compute; reflexivity|].
  etransitivity.
  - apply (console_of_generatePDF W0 mixed_doc mixed_doc letter_options).
    + reflexivity.
    + vm_compute. reflexivity.
  - vm_compute. reflexivity.
Defined.

(** ** One stamp per page, or none *)

Lemma layout_without_stamps W j options st :
  layout W j options = Ok st ->
  forall i p, pages (st_doc st) !! i = Some p -> List.filter is_stamp p = [].
Proof.
  intros E.
  refine (proj2 (paged_layout j (fun o => is_stamp o = false)
                   (fun _ p => List.filter is_stamp p = []) _ _ _ _ _ _ _ W options st E)).
  - intros i p o Ho Hp. rewrite List.filter_app, Hp. cbn [List.filter app]. by rewrite Ho.
  - done.
  - done.
  - done.
  - done.
  - intros i pw ph. unfold furniture, footer_ops, header_ops.
    by destruct (truthy_opt (footer_of j)).
  - intros i pw ph. unfold furniture, footer_ops, header_ops.
    by destruct (truthy_opt (footer_of j)).
Qed.

(** Every page of the saved document carries exactly one page stamp when
    [pageNumbering] is on, and none when it is off. *)
Theorem stamps_per_page
    (W : World) (input : json) (options : PDFOptions) (art : Artifact) (i : nat) (p : page) :
  generatePDF W input options = Ok art ->
  pages (saved art) !! i = Some p ->
  length (List.filter is_stamp p) = if pageNumbering options then 1%nat else 0%nat.
Proof.
  intros E Hi. unfold generatePDF in E.
  destruct (load W input) as [jsonData| |]; cbn [mbind outcome_bind] in E; try discriminate.
  destruct (layout W jsonData options) as [st| |] eqn:Ey;
    cbn [mbind outcome_bind] in E; try discriminate.
  inversion E; subst; cbn [saved] in Hi. clear E.
  pose proof (layout_without_stamps W jsonData options st Ey) as Hns.
  destruct (pageNumbering options).
  - destruct (pages (st_doc st) !! i) as [p0|] eqn:Hb.
    + rewrite (number_pages_lookup _ _ _ _ _ Hb) in Hi. injection Hi as <-.
      by rewrite List.filter_app, (Hns _ _ Hb).
    + apply lookup_lt_Some in Hi. rewrite number_pages_length in Hi.
      apply lookup_ge_None in Hb. unfold page in *. lia.
  - by rewrite (Hns _ _ Hi).
Qed.

Lemma stamps_per_page_witness :
  exists art p,
    generatePDF W0 table_doc letter_options = Ok art /\
    pages (saved art) !! 1%nat = Some p /\
    length (List.filter is_stamp p) = 1%nat.
Proof.
  do 2 eexists. split; [vm_compute; reflexivity|].
  split; [reflexivity|].
  refine (stamps_per_page W0 table_doc letter_options _ 1 _ _ _).
  - vm_compute. reflexivity.
  - reflexivity.
Defined.

(** ** Rows that are [null] *)

Lemma row_cells_null (h : string) (headers : list string) :
  mapM (fun header => get_prop JNull header) (h :: headers) = Throw TypeError.
Proof. done. Qed.

Lemma table_body_null (headers : list string) (value : list json) :
  headers <> [] -> JNull ∈ value -> table_body headers value = Throw TypeError.
Proof.
  intros Hh Hin. unfold table_body.
  induction value as [|row value IH]; [by apply elem_of_nil in Hin|].
  cbn [mapM]. destruct (is_null row) eqn:Hn.
  - destruct row; try discriminate. destruct headers as [|h headers]; [done|].
    by rewrite row_cells_null.
  - destruct (row_cells_total headers row Hn) as [cells ->]. cbn [mbind outcome_bind].
    apply elem_of_cons in Hin as [<-|Hin]; [done|].
    by rewrite (IH Hin).
Qed.

Lemma render_table_null W pw ph ft fs j st headers value :
  headers <> [] -> JNull ∈ value ->
  render_table W pw ph ft fs j st headers value = Throw TypeError.
Proof.
  intros Hh Hin. unfold render_table.
  destruct (if negb _ then _ else _) as [d y].
  by rewrite (table_body_null headers value Hh Hin).
Qed.

Lemma image_rows_null W pw ph ft fs j st good rest :
  forallb renderable good = true ->
  image_rows W pw ph ft fs j st (good ++ JNull :: rest) = Throw TypeError.
Proof.
  intros Hg. rewrite image_rows_app.
  destruct (image_rows_total W pw ph ft fs j good st Hg) as [st1 ->].
  done.
Qed.

Lemma render_fields_app W pw ph ft fs j fields1 fields2 st :
  render_fields W pw ph ft fs j st (fields1 ++ fields2)
  = (st1 ← render_fields W pw ph ft fs j st fields1;
     render_fields W pw ph ft fs j st1 fields2).
Proof.
  revert st. induction fields1 as [|[key value] fields1 IH]; intros st; [done|].
  cbn [app render_fields].
  destruct (render_field W pw ph ft fs j st key value) as [st1| |];
    cbn [mbind outcome_bind]; [|done..].
  apply IH.
Qed.

(** A field that throws in every state ends the call with its exception,
    whatever comes after it, once the fields before it have run. *)
Lemma generatePDF_rejects W input jsonData options pre key value post e :
  load W input = Ok jsonData ->
  is_null jsonData = false ->
  for_in jsonData = pre ++ (key, value) :: post ->
  Forall (fun kv => supported (snd kv) = true) pre ->
  (forall pw ph ft fs j st, render_field W pw ph ft fs j st key value = Throw e) ->
  generatePDF W input options = Throw e.
Proof.
  intros El Hn Hf Hpre Hthrow. unfold generatePDF. rewrite El. cbn [mbind outcome_bind].
  unfold layout. rewrite cleanJSON_id.
  replace (get_prop jsonData "header") with (Ok (prop jsonData "header"))
    by (by destruct jsonData).
  cbn [mbind outcome_bind].
  destruct (addHeader _ _ _ _ _) as [d y].
  rewrite Hf, render_fields_app.
  match goal with
  | |- context [render_fields ?w ?a ?b ?c ?f ?g ?st pre] =>
      destruct (render_fields_total w a b c f g pre st Hpre) as [st1 ->]
  end.
  cbn [mbind outcome_bind render_fields]. by rewrite Hthrow.
Qed.

(** A table field with a [null] row and at least one column ends the whole
    call with a TypeError: no artifact, whatever the other fields are. *)
Theorem null_table_row_rejects
    (W : World) (input jsonData : json) (options : PDFOptions)
    (pre post : list (string * json)) (key : string) (v0 : json) (rest : list json)
    (h : string) (headers : list string) :
  load W input = Ok jsonData ->
  is_null jsonData = false ->
  for_in jsonData = pre ++ (key, JArr (v0 :: rest)) :: post ->
  Forall (fun kv => supported (snd kv) = true) pre ->
  reserved key = false ->
  typeof_object v0 = true ->
  object_keys v0 = Ok (h :: headers) ->
  includes "url" (h :: headers) = false ->
  JNull ∈ rest ->
  generatePDF W input options = Throw TypeError.
Proof.
  intros El Hn Hf Hpre Hr Ht Hk Hu Hin.
  eapply generatePDF_rejects; try done.
  intros pw ph ft fs j st. unfold render_field. rewrite Hr, Ht, Hk.
  cbn [mbind outcome_bind]. rewrite Hu.
  apply render_table_null; [done|]. by apply elem_of_cons; right.
Qed.

Lemma null_table_row_rejects_witness :
  generatePDF W0
    (JObj [("note", JStr "n"); ("t", JArr [JObj [("a", JNum 1)]; JNull]); ("more", JStr "m")])
    letter_options
  = Throw TypeError.
Proof.
  apply (null_table_row_rejects W0 _
           (JObj [("note", JStr "n"); ("t", JArr [JObj [("a", JNum 1)]; JNull]);
                  ("more", JStr "m")])
           letter_options [("note", JStr "n")] [("more", JStr "m")] "t"
           (JObj [("a", JNum 1)]) [JNull] "a" []).
  - reflexivity.
  - reflexivity.
  - reflexivity.
  - repeat constructor.
  - reflexivity.
  - reflexivity.
  - reflexivity.
  - reflexivity.
  - apply elem_of_cons. by left.
Defined.

(** An image table with a [null] row ends the whole call with a TypeError
    when the loop reaches that row, even though the rows before it were
    fetched and drawn. *)
Theorem null_image_row_rejects
    (W : World) (input jsonData : json) (options : PDFOptions)
    (pre post : list (string * json)) (key : string) (v0 : json) (good rest : list json)
    (headers : list string) :
  load W input = Ok jsonData ->
  is_null jsonData = false ->
  for_in jsonData = pre ++ (key, JArr ((v0 :: good) ++ JNull :: rest)) :: post ->
  Forall (fun kv => supported (snd kv) = true) pre ->
  reserved key = false ->
  typeof_object v0 = true ->
  object_keys v0 = Ok headers ->
  includes "url" headers = true ->
  forallb renderable (v0 :: good) = true ->
  generatePDF W input options = Throw TypeError.
Proof.
  intros El Hn Hf Hpre Hr Ht Hk Hu Hg.
  eapply generatePDF_rejects; try done.
  intros pw ph ft fs j st. unfold render_field. rewrite Hr. cbn [app].
  rewrite Ht, Hk. cbn [mbind outcome_bind]. rewrite Hu.
  by apply (image_rows_null W pw ph ft fs j st (v0 :: good) rest).
Qed.

Lemma null_image_row_rejects_witness :
  generatePDF W0
    (JObj [("pics", JArr [JObj [("url", JStr "u")]; JNull])]) letter_options
  = Throw TypeError.
Proof.
  apply (null_image_row_rejects W0 _
           (JObj [("pics", JArr [JObj [("url", JStr "u")]; JNull])])
           letter_options [] [] "pics" (JObj [("url", JStr "u")]) [] [] ["url"]);
    try reflexivity.
  constructor.
Defined.

(** ** An image request that fails (C6) *)

Lemma requests_app (rows1 rows2 : list json) :
  requests (rows1 ++ rows2) = (requests rows1 + requests rows2)%nat.
Proof.
  induction rows1 as [|row rows1 IH]; [done|].
  cbn [app requests]. rewrite IH. lia.
Qed.

Lemma fetched_images_app W n (rows1 rows2 : list json) :
  fetched_images W n (rows1 ++ rows2)
  = fetched_images W n rows1 ++ fetched_images W (n + requests rows1) rows2.
Proof.
  revert n. induction rows1 as [|row rows1 IH]; intros n.
  - cbn [app fetched_images requests]. by rewrite Nat.add_0_r.
  - cbn [app fetched_images requests truthy_opt].
    destruct (prop row "url") as [u|]; cbn [truthy_opt].
    + destruct (truthy u).
      * rewrite IH. replace (S n + requests rows1)%nat with (n + (1 + requests rows1))%nat by lia.
        by destruct (imageToBase64 W n u).
      * by rewrite IH.
    + by rewrite IH.
Qed.

Lemma failures_app W n (rows1 rows2 : list json) :
  failures W n (rows1 ++ rows2)
  = failures W n rows1 ++ failures W (n + requests rows1) rows2.
Proof.
  revert n. induction rows1 as [|row rows1 IH]; intros n.
  - cbn [app failures requests]. by rewrite Nat.add_0_r.
  - cbn [app failures requests truthy_opt].
    destruct (prop row "url") as [u|]; cbn [truthy_opt].
    + destruct (truthy u).
      * rewrite IH. replace (S n + requests rows1)%nat with (n + (1 + requests rows1))%nat by lia.
        by destruct (imageToBase64 W n u).
      * by rewrite IH.
    + by rewrite IH.
Qed.

Lemma content_app W ft fs pw n (fields1 fields2 : list (string * json)) :
  content W ft fs pw n (fields1 ++ fields2)
  = content W ft fs pw n fields1
      ++ content W ft fs pw (n + field_requests fields1) fields2.
Proof.
  revert n. induction fields1 as [|[key value] fields1 IH]; intros n.
  - cbn [app content field_requests]. by rewrite Nat.add_0_r.
  - cbn [app content field_requests]. destruct (reserved key); [by rewrite IH|].
    destruct value as [| | |s|[|v0 rest]|kvs].
    1-4,7: rewrite IH; cbn [Nat.add app]; by rewrite <- ?app_assoc.
    + destruct (classify (JArr [])) as [[]| |];
        rewrite !IH; cbn [Nat.add app]; by rewrite <- ?app_assoc, ?Nat.add_assoc.
    + destruct (classify (JArr (v0 :: rest))) as [[]| |].
      3: destruct (object_keys v0) as [headers| |];
           [destruct (table_body headers (v0 :: rest))|..].
      all: rewrite !IH; cbn [Nat.add app]; by rewrite <- ?app_assoc, ?Nat.add_assoc.
Qed.

Lemma diagnostics_app W n (fields1 fields2 : list (string * json)) :
  diagnostics W n (fields1 ++ fields2)
  = diagnostics W n fields1 ++ diagnostics W (n + field_requests fields1) fields2.
Proof.
  revert n. induction fields1 as [|[key value] fields1 IH]; intros n.
  - cbn [app diagnostics field_requests]. by rewrite Nat.add_0_r.
  - cbn [app diagnostics field_requests]. destruct (reserved key); [by rewrite IH|].
    destruct value as [| | |s|rows|kvs].
    1-4,6: by rewrite IH.
    destruct (classify (JArr rows)) as [[]| |];
      rewrite !IH; cbn [Nat.add app]; by rewrite <- ?app_assoc, ?Nat.add_assoc.
Qed.

(** The requests counted by the state are those the fields so far cost. *)
Lemma render_fields_reqs W pw ph ft fs j fields st st' :
  render_fields W pw ph ft fs j st fields = Ok st' ->
  cur_last (st_doc st) ->
  st_reqs st' = (st_reqs st + field_requests fields)%nat.
Proof.
  revert st. induction fields as [|[key value] fields IH]; intros st E Hc;
    cbn [render_fields] in E.
  - inversion E; subst. cbn [field_requests]. lia.
  - destruct (render_field W pw ph ft fs j st key value) as [st1| |] eqn:E1;
      cbn [mbind outcome_bind] in E; try discriminate.
    cbn [field_requests]. destruct (reserved key) eqn:Hr.
    { unfold render_field in E1. rewrite Hr in E1. inversion E1; subst st1.
      by rewrite (IH _ E Hc). }
    rewrite render_field_dispatch in E1 by done.
    destruct (classify value) as [k| |] eqn:Ec; cbn [mbind outcome_bind] in E1;
      try discriminate.
    destruct value as [| | |s|rows|kvs].
    1-3,6: destruct k; inversion E1; subst st1; rewrite (IH _ E Hc); lia.
    + assert (k = KText) as -> by (by inversion Ec).
      inversion E1; subst st1; clear E1.
      destruct (render_text_items W pw ph ft fs j st key s Hc) as (Hc1 & _ & Hq1 & _).
      rewrite (IH _ E Hc1), Hq1. lia.
    + rewrite Ec. destruct k.
      * exfalso. unfold classify in Ec. destruct rows as [|v0 rest]; [done|].
        destruct (typeof_object v0); [|done].
        destruct (object_keys v0) as [headers| |]; cbn [mbind outcome_bind] in Ec;
          try done.
        by destruct (includes "url" headers).
      * destruct (image_rows_items W pw ph ft fs j rows st st1 E1 Hc)
          as (Hc1 & _ & Hq1 & _).
        rewrite (IH _ E Hc1), Hq1. lia.
      * destruct rows as [|v0 rest].
        { inversion E1; subst st1. rewrite (IH _ E Hc). lia. }
        destruct (object_keys v0) as [headers| |]; cbn [mbind outcome_bind] in E1;
          try discriminate.
        destruct (render_table_items W pw ph ft fs j st headers (v0 :: rest) st1 E1 Hc)
          as (body & _ & Hc1 & _ & Hq1 & _).
        rewrite (IH _ E Hc1), Hq1. lia.
      * assert (st1 = st) as -> by (destruct rows; by inversion E1).
        rewrite (IH _ E Hc). lia.
Qed.

Lemma content_image_table W ft fs pw n key rows (fields : list (string * json)) :
  reserved key = false ->
  classify (JArr rows) = Ok KImageTable ->
  content W ft fs pw n ((key, JArr rows) :: fields)
  = map IImage (fetched_images W n rows) ++ content W ft fs pw (n + requests rows) fields.
Proof.
  intros Hr Hc. cbn [content]. rewrite Hr.
  destruct rows as [|v0 rest]; [done|]. by rewrite Hc.
Qed.

Lemma diagnostics_image_table W n key rows (fields : list (string * json)) :
  reserved key = false ->
  classify (JArr rows) = Ok KImageTable ->
  diagnostics W n ((key, JArr rows) :: fields)
  = failures W n rows ++ diagnostics W (n + requests rows) fields.
Proof.
  intros Hr Hc. cbn [diagnostics]. by rewrite Hr, Hc.
Qed.

(** The walk over a document with one failing image request runs to its
    end: the row that fails needs nothing but a truthy [url]. *)
Lemma render_fields_failed_row W pw ph ft fs j st
    (before after : list (string * json)) key (pre post : list json) row u :
  cur_last (st_doc st) ->
  reserved key = false ->
  classify (JArr (pre ++ row :: post)) = Ok KImageTable ->
  Forall (fun kv => supported (snd kv) = true) before ->
  Forall (fun kv => supported (snd kv) = true) after ->
  forallb renderable pre = true ->
  forallb renderable post = true ->
  prop row "url" = Some u ->
  truthy u = true ->
  fetch_image W (st_reqs st + field_requests before + requests pre) u = None ->
  exists st',
    render_fields W pw ph ft fs j st (before ++ (key, JArr (pre ++ row :: post)) :: after)
    = Ok st'.
Proof.
  intros Hc Hr Hk Hb Ha Hpre Hpost Hu Ht Hf.
  rewrite render_fields_app.
  destruct (render_fields_total W pw ph ft fs j before st Hb) as [sa Ea].
  rewrite Ea. cbn [mbind outcome_bind render_fields].
  destruct (render_fields_items _ _ _ _ _ _ _ _ _ Ea Hc) as (Hca & _ & _).
  pose proof (render_fields_reqs _ _ _ _ _ _ _ _ _ Ea Hc) as Hqa.
  rewrite render_field_dispatch, Hk by done. cbn [mbind outcome_bind].
  rewrite image_rows_app.
  destruct (image_rows_total W pw ph ft fs j pre sa Hpre) as [s1 E1].
  rewrite E1. cbn [mbind outcome_bind image_rows].
  destruct (image_rows_items _ _ _ _ _ _ _ _ _ E1 Hca) as (_ & _ & Hq1 & _).
  rewrite (image_row_failed W pw ph ft fs j s1 row u).
  - cbn [mbind outcome_bind].
    match goal with
    | |- context [image_rows _ _ _ _ _ _ ?s2 post] =>
        destruct (image_rows_total W pw ph ft fs j post s2 Hpost) as [s3 ->]
    end.
    cbn [mbind outcome_bind]. by apply render_fields_total.
  - intros ->. discriminate Hu.
  - exact Hu.
  - exact Ht.
  - unfold imageToBase64. by rewrite Hq1, Hqa, Hf.
Qed.

(** C6: a document with an image table in which the request of one row
    fails, the other rows and fields being ones the walk runs.  The failed
    request raises nothing: the iteration leaves the document and the
    cursor as they were and prints one diagnostic, the loop and the walk go
    on, and the [try] block reaches its end.  The saved document holds the
    content of the fields before, the images fetched for the rows before
    and after the failed one, and the content of the fields after; the
    console holds the diagnostic of the failed row in its place.  The call
    resolves with this artifact when the canvas performs the drawing
    calls. *)
Theorem C6_failed_fetch_skips_row
    (C : canvas) (W : World) (input jsonData : json) (options : PDFOptions)
    (before after : list (string * json)) (key : string)
    (pre post : list json) (row u : json) :
  load W input = Ok jsonData ->
  for_in jsonData = before ++ (key, JArr (pre ++ row :: post)) :: after ->
  reserved key = false ->
  classify (JArr (pre ++ row :: post)) = Ok KImageTable ->
  Forall (fun kv => supported (snd kv) = true) before ->
  Forall (fun kv => supported (snd kv) = true) after ->
  forallb renderable pre = true ->
  forallb renderable post = true ->
  prop row "url" = Some u ->
  truthy u = true ->
  fetch_image W (field_requests before + requests pre) u = None ->
  exists art,
    generatePDF W input options = Ok art /\
    call C W input options = (if performs C (saved art) then Resolves art else Rejects) /\
    doc_items (saved art)
    = content W (fontType options) (optFontSize options) (pageWidth_of W options) 0 before
        ++ map IImage (fetched_images W (field_requests before) pre)
        ++ map IImage (fetched_images W (S (field_requests before + requests pre)) post)
        ++ content W (fontType options) (optFontSize options) (pageWidth_of W options)
             (S (field_requests before + requests pre) + requests post) after /\
    logged art
    = diagnostics W 0 before
        ++ failures W (field_requests before) pre
        ++ FailedToLoadImage u :: failures W (S (field_requests before + requests pre)) post
        ++ diagnostics W (S (field_requests before + requests pre) + requests post) after
        ++ [PDFCreated (outputPath art)] /\
    forall pw ph ft fs j st,
      st_reqs st = (field_requests before + requests pre)%nat ->
      image_row W pw ph ft fs j st row
      = Ok (mkL (st_doc st) (st_y st) (S (st_reqs st))
                (st_console st ++ [FailedToLoadImage u])).
Proof.
  intros El Hfor Hr Hk Hb Ha Hpre Hpost Hu Ht Hf.
  assert (Hi : imageToBase64 W (field_requests before + requests pre) u = None)
    by (unfold imageToBase64; by rewrite Hf).
  assert (Hn : is_null jsonData = false).
  { destruct jsonData; try done. by destruct before. }
  assert (Ey : exists st, layout W jsonData options = Ok st).
  { unfold layout. rewrite cleanJSON_id.
    replace (get_prop jsonData "header") with (Ok (prop jsonData "header"))
      by (by destruct jsonData).
    cbn [mbind outcome_bind].
    set (d0 := new_jsPDF W (format options) (orientation options)).
    assert (Hat0 : at_last d0 [] [])
      by (split; unfold d0; [apply new_jsPDF_pages|apply new_jsPDF_cur]).
    pose proof (at_last_addHeader d0 [] [] (prop jsonData "header") (psWidth d0)
                  (fontType options) (optFontSize options) Hat0) as Hat.
    destruct (addHeader d0 _ _ _ _) as [d y]. cbn [fst] in Hat.
    rewrite Hfor.
    match goal with
    | |- context [render_fields ?w ?a ?b ?c ?e ?f ?st _] =>
        destruct (render_fields_failed_row w a b c e f st before after key pre post row u)
          as [st' ->]; try done
    end.
    - apply cur_last_at_last. by do 2 eexists.
    - cbn [mbind outcome_bind]. by eexists. }
  destruct Ey as [st Ey].
  destruct (layout_walk W jsonData options st Ey) as (d & _ & Hitems & Hdoc & Hcons).
  unfold call, generatePDF. rewrite El. cbn [mbind outcome_bind]. rewrite Ey.
  cbn [mbind outcome_bind]. eexists. split; [reflexivity|]. split; [reflexivity|].
  cbn [saved logged outputPath]. split; [|split].
  - replace (doc_items (if pageNumbering options then _ else _)) with (doc_items d).
    2: { rewrite Hdoc. destruct (pageNumbering options).
         - by rewrite doc_items_number_pages, doc_items_addFooter.
         - by rewrite doc_items_addFooter. }
    rewrite Hitems, Hfor, content_app, content_image_table by done.
    rewrite fetched_images_app, requests_app, map_app. cbn [fetched_images requests].
    rewrite Hu, Ht. cbn [Nat.add truthy_opt]. rewrite Ht, Hi.
    rewrite <- !app_assoc. repeat f_equal. lia.
  - rewrite Hcons, Hfor, diagnostics_app, diagnostics_image_table by done.
    rewrite failures_app, requests_app. cbn [failures requests].
    rewrite Hu, Ht. cbn [Nat.add truthy_opt]. rewrite Ht, Hi.
    rewrite <- !app_assoc. cbn [app]. repeat f_equal. lia.
  - intros pw ph ft fs j s Hq. apply image_row_failed; try done.
    + intros ->. discriminate Hu.
    + by rewrite Hq.
Qed.

Lemma C6_failed_fetch_skips_row_witness :
  exists art,
    generatePDF W0 gallery_doc letter_options = Ok art /\
    call strict_canvas W0 gallery_doc letter_options = Resolves art /\
    doc_items (saved art)
    = [IText (JStr "NOTE:"); IText (JStr "n");
       IImage "data:image/jpeg;base64,QUJD"; IImage "data:image/jpeg;base64,QUJD";
       IText (JStr "MORE:"); IText (JStr "m")] /\
    logged art = [FailedToLoadImage (JStr "bad"); PDFCreated "/work/report-1700000000000.pdf"] /\
    renderable (JObj [("url", JStr "bad"); ("height", JStr "tall")]) = false.
Proof.
  destruct (C6_failed_fetch_skips_row strict_canvas W0 gallery_doc gallery_doc letter_options
              [("note", JStr "n")] [("more", JStr "m")] "pics"
              [JObj [("url", JStr "first")]] [JObj [("url", JStr "third")]]
              (JObj [("url", JStr "bad"); ("height", JStr "tall")]) (JStr "bad"))
    as (art & E & Hc & Hi & Hl & _); try reflexivity.
  - repeat constructor.
  - repeat constructor.
  - exists art. split; [exact E|]. rewrite Hc, Hi, Hl.
    vm_compute in E. injection E as <-. vm_compute. done.
Defined.

(** ** An image taller than the page body *)

Lemma truthy_positive (h : Q) : 0 < h -> truthy (JNum h) = true.
Proof.
  unfold Qlt, truthy. simpl. intros Hh.
  destruct (Z.eqb_spec (Qnum h) 0); [lia|done].
Qed.

(** An image row whose height exceeds [pageHeight - 200] and does not fit
    below the cursor costs two page breaks: [ensureSpacing] opens a page
    that stays with its furniture only, the secondary check opens the next
    one, and the image is drawn there at y = 100. *)
Theorem tall_image_leaves_blank_page
    (W : World) (pw ph : Q) (ft : string) (fs : Q) (j : json)
    (st : LState) (row u : json) (img : string) (h : Q) (l : list page) (p : page) :
  at_last (st_doc st) l p ->
  get_prop row "url" = Ok (Some u) ->
  truthy u = true ->
  imageToBase64 W (st_reqs st) u = Some img ->
  prop row "height" = Some (JNum h) ->
  200 <= ph ->
  ph - 200 < h ->
  ph - 100 < st_y st + h ->
  image_row W pw ph ft fs j st row
  = Ok (mkL (draw Body (Image img (default (JNum 50) (prop row "x")) 100
                          (or_else (prop row "width") (JNum 150)) h)
               (fst (inline_break
                       (fst (inline_break (st_doc st) (psWidth (st_doc st))
                               (psHeight (st_doc st)) ft fs j))
                       pw ph ft fs j)))
            (100 + (h + 20)) (S (st_reqs st)) (st_console st)) /\
  forall st', image_row W pw ph ft fs j st row = Ok st' ->
    pages (st_doc st')
    = l ++ [p;
            furniture j (psWidth (st_doc st)) (psHeight (st_doc st));
            furniture j pw ph
              ++ [(Body, Image img (default (JNum 50) (prop row "x")) 100
                           (or_else (prop row "width") (JNum 150)) h)]].
Proof.
  intros Hat Hu Ht Hi Hh H200 Htall Hover.
  assert (Hpos : truthy (JNum h) = true) by (apply truthy_positive; lra).
  assert (E : image_row W pw ph ft fs j st row
              = Ok (mkL (draw Body (Image img (default (JNum 50) (prop row "x")) 100
                                      (or_else (prop row "width") (JNum 150)) h)
                           (fst (inline_break
                                   (fst (inline_break (st_doc st) (psWidth (st_doc st))
                                           (psHeight (st_doc st)) ft fs j))
                                   pw ph ft fs j)))
                        (100 + (h + 20)) (S (st_reqs st)) (st_console st))).
  { unfold image_row. rewrite Hu. cbn [mbind outcome_bind].
    rewrite Ht, Hi, (imageToBase64_nonempty _ _ _ _ Hi), Hh.
    unfold num_or. rewrite Hpos. cbn [mbind outcome_bind].
    rewrite ensureSpacing_unfold.
    replace (gtb (st_y st + h) (ph - 100)) with true by (symmetry; by apply gtb_gt).
    destruct (inline_break (st_doc st) _ _ ft fs j) as [d1 y1] eqn:Eb1.
    assert (y1 = 100) by (by apply (f_equal snd) in Eb1). subst y1.
    replace (gtb (100 + h) (ph - 100)) with true by (symmetry; apply gtb_gt; lra).
    destruct (inline_break d1 pw ph ft fs j) as [d2 y2] eqn:Eb2.
    assert (y2 = 100) by (by apply (f_equal snd) in Eb2). subst y2.
    cbn [fst]. rewrite Eb2. reflexivity. }
  split; [exact E|].
  intros st' E'. rewrite E in E'. injection E' as <-. cbn [st_doc].
  pose proof (at_last_inline_break
                (fst (inline_break (st_doc st) (psWidth (st_doc st))
                        (psHeight (st_doc st)) ft fs j)) pw ph ft fs j) as Hb.
  eapply at_last_draw in Hb. destruct Hb as [-> _].
  rewrite inline_break_pages. destruct Hat as [-> _].
  by rewrite <- !app_assoc.
Qed.

Lemma tall_image_leaves_blank_page_witness :
  exists st',
    image_row W0 612 792 "times" 14 (JObj []) (st0 (JObj []))
      (JObj [("url", JStr "u"); ("height", JNum 1000)]) = Ok st' /\
    length (pages (st_doc st')) = 3%nat.
Proof.
  destruct (tall_image_leaves_blank_page W0 612 792 "times" 14 (JObj []) (st0 (JObj []))
              (JObj [("url", JStr "u"); ("height", JNum 1000)]) (JStr "u")
              "data:image/jpeg;base64,QUJD" 1000 [] (header_ops None 612))
    as [E Hp].
  - vm_compute. split; reflexivity.
  - reflexivity.
  - reflexivity.
  - reflexivity.
  - reflexivity.
  - vm_compute. discriminate.
  - reflexivity.
  - reflexivity.
  - eexists. split; [exact E|]. by rewrite (Hp _ E).
Defined.

(** ** The font size after a page break *)

(** A wrapped line that [ensureSpacing] moves to a new page is drawn at
    y = 100 with the document's font size left at 10 by [addFooter] when
    the document has a truthy [footer], and at [fontSize] otherwise; a line
    that stays on the page is drawn at the size in force before it. *)
Theorem line_font_size_after_break
    (H : Q) (ft : string) (fs : Q) (j : json) (d : Doc) (y : Q) (line : string) :
  (H - 100 < y + 20 ->
     exists d',
       text_line H ft fs j (d, y) line
       = (draw Body (Text (JStr line) 50 100 None) d', 100 + 20) /\
       curFontSize d' = if truthy_opt (footer_of j) then 10 else fs) /\
  (y + 20 <= H - 100 ->
     text_line H ft fs j (d, y) line
     = (draw Body (Text (JStr line) 50 (y + 20) None) d, y + 20 + 20)).
Proof.
  split; intros Hy; unfold text_line; cbn [fst snd]; rewrite ensureSpacing_unfold.
  - replace (gtb (y + 20) (H - 100)) with true by (symmetry; by apply gtb_gt).
    destruct (inline_break d (psWidth d) (psHeight d) ft fs j) as [d' y'] eqn:Eb.
    assert (y' = 100) by (by apply (f_equal snd) in Eb). subst y'.
    exists d'. split; [done|].
    apply (f_equal (fun r => curFontSize (fst r))) in Eb. cbn [fst] in Eb. rewrite <- Eb.
    unfold inline_break, addFooter. cbn [fst].
    destruct (footer_of j) as [f|]; [|done]. cbn [truthy_opt].
    by destruct (truthy f).
  - replace (gtb (y + 20) (H - 100)) with false by (symmetry; by apply gtb_le).
    done.
Qed.

Lemma line_font_size_after_break_witness :
  exists d',
    text_line 792 "times" 14 table_doc (st_doc (st0 table_doc), 680) "next"
    = (draw Body (Text (JStr "next") 50 100 None) d', 100 + 20) /\
    curFontSize d' = 10.
Proof.
  apply (proj1 (line_font_size_after_break 792 "times" 14 table_doc
                  (st_doc (st0 table_doc)) 680 "next")).
  reflexivity.
Defined.

(** ** A text block that fits on the page *)

Lemma inject_nat_succ (n : nat) :
  inject_Z (Z.of_nat (S n)) == inject_Z (Z.of_nat n) + 1.
Proof. by rewrite Nat2Z.inj_succ, <- Z.add_1_r, inject_Z_plus. Qed.

Lemma inject_nat_nonneg (n : nat) : 0 <= inject_Z (Z.of_nat n).
Proof. unfold Qle. simpl. lia. Qed.

Lemma text_lines_fit H ft fs j lines d y l p :
  at_last d l p ->
  y + 40 * inject_Z (Z.of_nat (length lines)) <= H - 80 ->
  at_last (fst (fold_left (text_line H ft fs j) lines (d, y))) l (p ++ line_ops y lines) /\
  snd (fold_left (text_line H ft fs j) lines (d, y))
  == y + 40 * inject_Z (Z.of_nat (length lines)).
Proof.
  revert d y p. induction lines as [|line lines IH]; intros d y p Hat Hy.
  - cbn [fold_left fst snd line_ops length]. rewrite app_nil_r.
    split; [done|]. unfold inject_Z, Z.of_nat. lra.
  - cbn [length] in *. pose proof (inject_nat_succ (length lines)) as Hs.
    pose proof (inject_nat_nonneg (length lines)) as Hn.
    cbn [fold_left line_ops].
    assert (Et : text_line H ft fs j (d, y) line
                 = (draw Body (Text (JStr line) 50 (y + 20) None) d, y + 20 + 20)).
    { unfold text_line. cbn [fst snd]. rewrite ensureSpacing_unfold.
      replace (gtb (y + 20) (H - 100)) with false; [done|].
      symmetry. apply gtb_le. lra. }
    rewrite Et.
    destruct (IH (draw Body (Text (JStr line) 50 (y + 20) None) d) (y + 20 + 20)
                (p ++ [(Body, Text (JStr line) 50 (y + 20) None)])) as [Hat' Hy'].
    + by apply at_last_draw.
    + lra.
    + split; [by rewrite <- app_assoc in Hat'|]. rewrite Hy'. lra.
Qed.

Lemma line_ops_lookup (y : Q) (lines : list string) (k : nat) (line : string) :
  lines !! k = Some line ->
  exists yk,
    line_ops y lines !! k = Some (Body, Text (JStr line) 50 yk None) /\
    yk == y + 20 + 40 * inject_Z (Z.of_nat k).
Proof.
  revert y k. induction lines as [|l0 lines IH]; intros y k Hk; [done|].
  destruct k as [|k].
  - injection Hk as ->. exists (y + 20). split; [done|].
    unfold inject_Z, Z.of_nat. lra.
  - destruct (IH (y + 20 + 20) k Hk) as (yk & Hl & Hy).
    exists yk. split; [exact Hl|].
    rewrite Hy. pose proof (inject_nat_succ k). lra.
Qed.

(** A string field whose label and [n] wrapped lines fit below the cursor
    [y] ([y + 30 + 40 n <= pageHeight - 100]) is drawn on the current page
    without a break: the label at [y + 30], line [k] (from 0) at
    [y + 70 + 40 k], and the cursor ends at [y + 70 + 40 n]; each line takes
    40, since [ensureSpacing] and the loop both advance by 20. *)
Theorem render_text_fits
    (W : World) (pw H : Q) (ft : string) (fs : Q) (j : json)
    (st : LState) (key value : string) (l : list page) (p : page) :
  at_last (st_doc st) l p ->
  st_y st + 30
    + 40 * inject_Z (Z.of_nat (length (splitTextToSize W ft "normal" fs value (pw - 100))))
    <= H - 100 ->
  let lines := splitTextToSize W ft "normal" fs value (pw - 100) in
  let st' := render_text W pw H ft fs j st key value in
  pages (st_doc st')
  = l ++ [p ++ (Body, Text (JStr (toUpperCase W key +:+ ":")) 50 (st_y st + 30) None)
               :: line_ops (st_y st + 30 + 20) lines] /\
  st_y st' == st_y st + 70 + 40 * inject_Z (Z.of_nat (length lines)) /\
  forall k line, lines !! k = Some line ->
    exists yk,
      line_ops (st_y st + 30 + 20) lines !! k = Some (Body, Text (JStr line) 50 yk None) /\
      yk == st_y st + 70 + 40 * inject_Z (Z.of_nat k).
Proof.
  intros Hat Hy lines st'. subst st'. unfold render_text.
  pose proof (inject_nat_nonneg (length lines)) as Hn. fold lines in Hy.
  rewrite ensureSpacing_unfold.
  replace (gtb (st_y st + 30) (H - 100)) with false by (symmetry; apply gtb_le; lra).
  set (d2 := setFont ft (Some "normal")
               (draw Body (Text (JStr (toUpperCase W key +:+ ":")) 50 (st_y st + 30) None)
                  (setFont ft (Some "bold") (setFontSize fs (st_doc st))))).
  change (splitTextToSize W (curFontName d2) (curFontStyle d2) (curFontSize d2) value (pw - 100))
    with lines.
  assert (Hat2 : at_last d2 l
                   (p ++ [(Body, Text (JStr (toUpperCase W key +:+ ":")) 50
                                  (st_y st + 30) None)]))
    by (by apply (at_last_draw (st_doc st))).
  destruct (text_lines_fit H ft fs j lines d2 (st_y st + 30 + 20) l _ Hat2) as [Hat3 Hy3];
    [lra|].
  destruct (fold_left _ _ _) as [d3 y3]. cbn [fst snd st_doc st_y] in *.
  split; [|split].
  - destruct Hat3 as [-> _]. by rewrite <- app_assoc.
  - rewrite Hy3. lra.
  - intros k line Hk. destruct (line_ops_lookup (st_y st + 30 + 20) lines k line Hk)
      as (yk & Hl & Hyk).
    exists yk. split; [done|]. rewrite Hyk. lra.
Qed.

Lemma render_text_fits_witness :
  pages (st_doc (render_text W0 612 792 "times" 14 (JObj []) (st0 (JObj [])) "summary" "short"))
  = [header_ops None 612
       ++ [(Body, Text (JStr "SUMMARY:") 50 (90 + 30) None);
           (Body, Text (JStr "short") 50 (90 + 30 + 20 + 20) None)]].
Proof.
  destruct (render_text_fits W0 612 792 "times" 14 (JObj []) (st0 (JObj []))
              "summary" "short" [] (header_ops None 612)) as (Hp & _ & _).
  - vm_compute. split; reflexivity.
  - vm_compute. discriminate.
  - exact Hp.
Defined.

(** ** Why a call is rejected *)













